(** * go-todo: the CRUD handlers of [main.go] over a model of the mgo driver

    The four request handlers [fetchTodos], [createTodo], [deleteTodo] and
    [updateTodo] are embedded as pure functions over an explicit server
    state (the [todos] collection and the process state that
    [bson.NewObjectId] reads) and an explicit response writer (the list of
    [rnd.JSON] calls made on it).  A handler returns or panics; either way
    it leaves a server state.  The library calls the handlers make
    ([strings.TrimSpace], [bson.IsObjectIdHex], [bson.ObjectIdHex],
    [ObjectId.Hex], [Collection.Insert/Update/RemoveId/Find.All], and the
    bson marshalling of [todoModel] by its struct tags) are modelled next
    to them, each from the behaviour of the library function of that
    name. *)

From Stdlib Require Import ZArith List String Ascii Bool Lia.
From Stdlib Require Strings.Byte.
Import ListNotations.

Open Scope Z_scope.

(** ** Go values *)

(** A Go string is modelled by the sequence of runes that ranging over it
    yields (a byte that is not valid UTF-8 ranges as U+FFFD). *)
Definition rune := Z.
Definition gostring := list rune.

(** A string literal of the source. *)
Definition str (s : string) : gostring :=
  map (fun a => Z.of_N (N_of_ascii a)) (list_ascii_of_string s).

Definition byte := Byte.byte.

(** The conversion [byte(x)] of an unsigned integer: the low eight bits. *)
Definition byte_of_Z (x : Z) : byte :=
  match Byte.of_N (Z.to_N (x mod 256)) with
  | Some b => b
  | None => Byte.x00
  end.

(** [time.Time] as nanoseconds since the Unix epoch. *)
Definition Time := Z.

(** The zero [time.Time] (January 1, year 1, 00:00:00 UTC). *)
Definition zeroTime : Time := -62135596800 * 1000000000.

(** [error] values the handlers can see. *)
Inductive error :=
| ErrNotFound                       (* mgo.ErrNotFound *)
| ErrDuplicateKey                   (* E11000 duplicate key on _id *)
| ErrIO (msg : string)              (* socket or server failure *)
| ErrJSON (msg : string).           (* encoding/json decoding error *)

(** ** unicode, strings *)

Module unicode.

(** [unicode.IsSpace]: the Latin-1 spaces, then the White_Space table. *)
Definition IsSpace (r : rune) : bool :=
  if (0 <=? r) && (r <=? 255) then
    (r =? 9) || (r =? 10) || (r =? 11) || (r =? 12) || (r =? 13)
    || (r =? 32) || (r =? 0x85) || (r =? 0xA0)
  else
    (r =? 0x1680) || ((0x2000 <=? r) && (r <=? 0x200a))
    || (r =? 0x2028) || (r =? 0x2029) || (r =? 0x202f)
    || (r =? 0x205f) || (r =? 0x3000).

End unicode.

Module strings.

Fixpoint TrimLeftFunc (f : rune -> bool) (s : gostring) : gostring :=
  match s with
  | [] => []
  | c :: rest => if f c then TrimLeftFunc f rest else s
  end.

Definition TrimRightFunc (f : rune -> bool) (s : gostring) : gostring :=
  rev (TrimLeftFunc f (rev s)).

(** [strings.TrimSpace]: all leading and trailing white space removed. *)
Definition TrimSpace (s : gostring) : gostring :=
  TrimRightFunc unicode.IsSpace (TrimLeftFunc unicode.IsSpace s).

End strings.

(** ** encoding/hex *)

Module hex.

Definition hextable : gostring := str "0123456789abcdef".

Definition encodeByte (b : byte) : gostring :=
  let v := Z.of_N (Byte.to_N b) in
  [ nth (Z.to_nat (Z.shiftr v 4)) hextable 0
  ; nth (Z.to_nat (Z.land v 15)) hextable 0 ].

Definition EncodeToString (src : list byte) : gostring :=
  flat_map encodeByte src.

Definition fromHexChar (c : rune) : option Z :=
  if (48 <=? c) && (c <=? 57) then Some (c - 48)
  else if (97 <=? c) && (c <=? 102) then Some (c - 97 + 10)
  else if (65 <=? c) && (c <=? 70) then Some (c - 65 + 10)
  else None.

(** [hex.DecodeString]: [None] stands for ErrLength or InvalidByteError. *)
Fixpoint DecodeString (s : gostring) : option (list byte) :=
  match s with
  | [] => Some []
  | [_] => None
  | a :: b :: rest =>
      match fromHexChar a, fromHexChar b, DecodeString rest with
      | Some x, Some y, Some bs => Some (byte_of_Z (Z.lor (Z.shiftl x 4) y) :: bs)
      | _, _, _ => None
      end
  end.

End hex.

(** ** bson *)

Module bson.

(** [bson.ObjectId] is a string type holding raw bytes. *)
Definition ObjectId := list byte.

Definition ObjectId_eq_dec : forall a b : ObjectId, {a = b} + {a <> b} :=
  list_eq_dec Byte.byte_eq_dec.

(** [id.Hex()] *)
Definition Hex (id : ObjectId) : gostring := hex.EncodeToString id.

(** [bson.IsObjectIdHex]: 24 characters that decode as hexadecimal.  Hex
    digits are one byte each, so on a string that decodes the byte length
    [len(s)] is the number of runes. *)
Definition IsObjectIdHex (s : gostring) : bool :=
  if negb (Nat.eqb (List.length s) 24) then false
  else match hex.DecodeString s with Some _ => true | None => false end.

(** [bson.ObjectIdHex]: [None] is the panic on invalid input. *)
Definition ObjectIdHex (s : gostring) : option ObjectId :=
  match hex.DecodeString s with
  | Some d => if Nat.eqb (List.length d) 12 then Some d else None
  | None => None
  end.

(** [bson.NewObjectId]: 4 bytes of Unix time, 3 of machine id, 2 of process
    id and a 3-byte counter, all big endian; [i] is the counter value after
    the atomic increment. *)
Definition NewObjectId (unix : Z) (machineId : byte * byte * byte)
    (processId : Z) (i : Z) : ObjectId :=
  let u := unix mod 2 ^ 32 in
  let '(m0, m1, m2) := machineId in
  [ byte_of_Z (Z.shiftr u 24); byte_of_Z (Z.shiftr u 16)
  ; byte_of_Z (Z.shiftr u 8); byte_of_Z u
  ; m0; m1; m2
  ; byte_of_Z (Z.shiftr processId 8); byte_of_Z processId
  ; byte_of_Z (Z.shiftr i 16); byte_of_Z (Z.shiftr i 8); byte_of_Z i ].

(** The BSON element values the collection holds. *)
Inductive value :=
| VObjectId (o : ObjectId)
| VString (s : gostring)
| VBool (b : bool)
| VTime (ms : Z).                   (* UTC datetime, milliseconds *)

Definition value_eq_dec : forall a b : value, {a = b} + {a <> b}.
Proof.
  decide equality.
  - apply ObjectId_eq_dec.
  - apply (list_eq_dec Z.eq_dec).
  - apply Bool.bool_dec.
  - apply Z.eq_dec.
Defined.

(** A document: its elements in order ([bson.D], and [bson.M] once
    marshalled). *)
Definition Doc := list (string * value).

Fixpoint lookup (k : string) (d : Doc) : option value :=
  match d with
  | [] => None
  | (k', v) :: rest => if String.eqb k k' then Some v else lookup k rest
  end.

End bson.

(** ** The data model of main.go *)

Module Model.
(** [todoModel], the record as stored. *)
Record todoModel := mk
  { ID : bson.ObjectId
  ; Title : gostring
  ; Completed : bool
  ; CreatedAt : Time }.
End Model.

Module Wire.
(** [todo], the record as sent and received. *)
Record todo := mk
  { ID : gostring
  ; Title : gostring
  ; Completed : bool
  ; CreatedAt : Time }.
End Wire.

Definition todoModel : Type := Model.todoModel.
Definition todo : Type := Wire.todo.

(** ** bson: struct tags and marshalling *)

(** [strings.Split(s, sep)] for a one-character separator. *)
Fixpoint Split (sep : ascii) (s : string) : list string :=
  match s with
  | EmptyString => [EmptyString]
  | String c rest =>
      if Ascii.eqb c sep then EmptyString :: Split sep rest
      else match Split sep rest with
           | hd :: tl => String c hd :: tl
           | [] => [String c EmptyString]
           end
  end.

(** What bson keeps of a struct field's tag. *)
Record fieldInfo := mkFieldInfo
  { Key : string
  ; OmitEmpty : bool
  ; MinSize : bool
  ; Inline : bool }.

(** One flag of a tag, as [getStructInfo] reads it: the flag is compared as
    it stands with the three names bson knows; any other text is the panic
    "Unsupported flag" ([None]). *)
Definition setFlag (info : fieldInfo) (flag : string) : option fieldInfo :=
  if String.eqb flag "omitempty" then
    Some (mkFieldInfo (Key info) true (MinSize info) (Inline info))
  else if String.eqb flag "minsize" then
    Some (mkFieldInfo (Key info) (OmitEmpty info) true (Inline info))
  else if String.eqb flag "inline" then
    Some (mkFieldInfo (Key info) (OmitEmpty info) (MinSize info) true)
  else None.

Fixpoint setFlags (info : fieldInfo) (flags : list string)
  : option fieldInfo :=
  match flags with
  | [] => Some info
  | flag :: rest =>
      match setFlag info flag with
      | Some info' => setFlags info' rest
      | None => None
      end
  end.

(** A bson tag: the key, then the flags, separated by commas.  (The tags
    of [todoModel] are neither empty nor "-", the two forms that make bson
    name the element after the field or skip the field.) *)
Definition parseTag (tag : string) : option fieldInfo :=
  match Split "," tag with
  | key :: flags => setFlags (mkFieldInfo key false false false) flags
  | [] => None
  end.

(** The bson tags of the four fields of a struct like [todoModel]. *)
Record structTags := mkTags
  { tagID : string
  ; tagTitle : string
  ; tagCompleted : string
  ; tagCreatedAt : string }.

(** The tags of [todoModel], as main.go writes them. *)
Definition todoModel_tags : structTags :=
  mkTags "_id, omitempty" "title" "completed" "created_at".

Definition distinct4 (a b c d : string) : bool :=
  negb (String.eqb a b) && negb (String.eqb a c) && negb (String.eqb a d)
  && negb (String.eqb b c) && negb (String.eqb b d)
  && negb (String.eqb c d).

(** [getStructInfo]: the four tags parsed in field order; [None] is its
    panic, on an unsupported flag or on a key used twice.  bson's
    [Marshal] and [Unmarshal] let this panic through to their caller. *)
Definition getStructInfo (tags : structTags)
  : option (fieldInfo * fieldInfo * fieldInfo * fieldInfo) :=
  match parseTag (tagID tags), parseTag (tagTitle tags),
        parseTag (tagCompleted tags), parseTag (tagCreatedAt tags) with
  | Some i, Some t, Some c, Some a =>
      if distinct4 (Key i) (Key t) (Key c) (Key a) then Some (i, t, c, a)
      else None
  | _, _, _, _ => None
  end.

(** The element a field gives: none when the field is tagged [omitempty]
    and holds its zero value. *)
Definition element (info : fieldInfo) (zero : bool) (v : bson.value)
  : bson.Doc :=
  if OmitEmpty info && zero then [] else [(Key info, v)].

(** Marshalling of a struct of the four fields of [todoModel] under the
    given tags.  A [time.Time] is stored as milliseconds.  (No field is an
    integer or inlined, so [MinSize] and [Inline] have nothing to act on.) *)
Definition marshalWith (tags : structTags) (tm : todoModel)
  : option bson.Doc :=
  match getStructInfo tags with
  | None => None
  | Some (i, t, c, a) =>
      Some (element i (match Model.ID tm with [] => true | _ => false end)
              (bson.VObjectId (Model.ID tm))
            ++ element t (match Model.Title tm with [] => true | _ => false end)
                 (bson.VString (Model.Title tm))
            ++ element c (negb (Model.Completed tm))
                 (bson.VBool (Model.Completed tm))
            ++ element a (Model.CreatedAt tm =? zeroTime)
                 (bson.VTime (Model.CreatedAt tm / 1000000)))
  end.

(** Unmarshalling of a document into a fresh struct under the given tags:
    an element that is absent, or whose kind does not fit the field,
    leaves the field at its zero value. *)
Definition unmarshalWith (tags : structTags) (d : bson.Doc)
  : option todoModel :=
  match getStructInfo tags with
  | None => None
  | Some (i, t, c, a) =>
      Some {| Model.ID := match bson.lookup (Key i) d with
                          | Some (bson.VObjectId o) => o | _ => [] end
            ; Model.Title := match bson.lookup (Key t) d with
                             | Some (bson.VString s) => s | _ => [] end
            ; Model.Completed := match bson.lookup (Key c) d with
                                 | Some (bson.VBool b) => b | _ => false end
            ; Model.CreatedAt := match bson.lookup (Key a) d with
                                 | Some (bson.VTime ms) => ms * 1000000
                                 | _ => zeroTime end |}
  end.

(** Marshalling and unmarshalling of a [todoModel]; [None] is the panic. *)
Definition marshal (tm : todoModel) : option bson.Doc :=
  marshalWith todoModel_tags tm.

Definition unmarshal (d : bson.Doc) : option todoModel :=
  unmarshalWith todoModel_tags d.

(** ** mgo: the collection [todos] *)

Module mgo.

(** The documents of the collection, in natural order. *)
Definition Collection := list bson.Doc.

(** A selector of plain field-value pairs matches the documents that hold
    every pair. *)
Definition matches (selector d : bson.Doc) : bool :=
  forallb (fun kv =>
             match bson.lookup (fst kv) d with
             | Some v => if bson.value_eq_dec v (snd kv) then true else false
             | None => false
             end) selector.

Definition byId (id : bson.ObjectId) : bson.Doc :=
  [("_id"%string, bson.VObjectId id)].

(** Every call is one round trip on the shared session; [link] is what the
    round trip itself yields: [Some err] when the socket or the server
    fails, [None] when the server carries the operation out. *)

(** [Collection.Insert(tm)].  The document is marshalled as the operation
    is written out, before the round trip: a panic of the marshalling
    ([None]) comes first.  The server keeps [_id] unique: a second
    document with an [_id] already present is refused. *)
Definition Insert (link : option error) (tm : todoModel) (c : Collection)
  : option (error + Collection) :=
  match marshal tm with
  | None => None
  | Some d =>
      match link with
      | Some err => Some (inl err)
      | None =>
          if existsb (matches (byId (Model.ID tm))) c
          then Some (inl ErrDuplicateKey)
          else Some (inr (c ++ [d]))
      end
  end.

(** The documents that came back, unmarshalled one after the other into
    the elements of the result slice. *)
Fixpoint unmarshalAll (c : Collection) : option (list todoModel) :=
  match c with
  | [] => Some []
  | d :: rest =>
      match unmarshal d with
      | None => None
      | Some t =>
          match unmarshalAll rest with
          | None => None
          | Some ts => Some (t :: ts)
          end
      end
  end.

(** [Collection.Find(bson.M{}).All(&todos)]: the round trip, then every
    document unmarshalled into a [todoModel]; [None] is the panic of the
    unmarshalling, which an empty result never meets. *)
Definition All (link : option error) (c : Collection)
  : option (error + list todoModel) :=
  match link with
  | Some err => Some (inl err)
  | None =>
      match unmarshalAll c with
      | None => None
      | Some found => Some (inr found)
      end
  end.

(** What an update document without update operators does to the document
    it is applied to: it replaces it, and only [_id] is kept. *)
Definition replacement (old update : bson.Doc) : bson.Doc :=
  match bson.lookup "_id" old with
  | Some k => ("_id"%string, k) :: update
  | None => update
  end.

Fixpoint updateFirst (selector update : bson.Doc) (c : Collection)
  : option Collection :=
  match c with
  | [] => None
  | d :: rest =>
      if matches selector d then Some (replacement d update :: rest)
      else match updateFirst selector update rest with
           | Some rest' => Some (d :: rest')
           | None => None
           end
  end.

(** [Collection.Update(selector, update)] with an update document of plain
    fields (the handler's has no [$set] or other operator): the first
    document matching the selector is replaced; in the session's default
    safe mode [ErrNotFound] is returned when no document matches. *)
Definition Update (link : option error) (selector update : bson.Doc)
    (c : Collection) : error + Collection :=
  match link with
  | Some err => inl err
  | None =>
      match updateFirst selector update c with
      | Some c' => inr c'
      | None => inl ErrNotFound
      end
  end.

Fixpoint removeFirst (selector : bson.Doc) (c : Collection)
  : option Collection :=
  match c with
  | [] => None
  | d :: rest =>
      if matches selector d then Some rest
      else match removeFirst selector rest with
           | Some rest' => Some (d :: rest')
           | None => None
           end
  end.

(** [Collection.RemoveId(id)]: removes the document with that [_id], and
    returns [ErrNotFound] when there is none. *)
Definition RemoveId (link : option error) (id : bson.ObjectId)
    (c : Collection) : error + Collection :=
  match link with
  | Some err => inl err
  | None =>
      match removeFirst (byId id) c with
      | Some c' => inr c'
      | None => inl ErrNotFound
      end
  end.

End mgo.

(** ** net/http and the renderer *)

Definition StatusOK : Z := 200.
Definition StatusCreated : Z := 201.
Definition StatusBadRequest : Z := 400.
Definition StatusProcessing : Z := 102.

(** The values the handlers put in a response. *)
Inductive jvalue :=
| JString (s : gostring)
| JError (e : error)
| JTodos (l : list todo).

(** What is handed to [rnd.JSON]: a [renderer.M], or a bare error. *)
Inductive payload :=
| M (kv : list (string * jvalue))
| V (e : error).

Record Response := mkResponse
  { status : Z
  ; body : payload }.

(** The response writer, as the [rnd.JSON] calls made on it so far. *)
Definition ResponseWriter := list Response.

Module rnd.
Definition JSON (w : ResponseWriter) (status : Z) (v : payload)
  : ResponseWriter :=
  w ++ [mkResponse status v].
End rnd.

(** The request as the handlers read it: the [id] URL parameter and what
    [json.NewDecoder(r.Body).Decode(&t)] gives on a zero [todo]. *)
Record Request := mkRequest
  { URLParam_id : gostring
  ; Decode : error + todo }.

(** What one request observes of the outside: the outcome of its database
    round trip, the clock read inside [bson.NewObjectId] and the clock
    read by [time.Now()] at the [CreatedAt] field (both in nanoseconds). *)
Record Env := mkEnv
  { link : option error
  ; clock : Time
  ; now : Time }.

(** The process: the globals [bson.NewObjectId] reads and the collection
    behind the global [db]. *)
Record Server := mkServer
  { machineId : byte * byte * byte
  ; processId : Z
  ; objectIdCounter : Z
  ; todos : mgo.Collection }.

Definition with_todos (s : Server) (c : mgo.Collection) : Server :=
  mkServer (machineId s) (processId s) (objectIdCounter s) c.

Definition with_counter (s : Server) (i : Z) : Server :=
  mkServer (machineId s) (processId s) i (todos s).

(** A handler returns, leaving a writer and a server state, or panics,
    leaving the server state its steps so far have made (net/http recovers
    the panic and the process goes on). *)
Inductive outcome :=
| Done (w : ResponseWriter) (s : Server)
| Panic (s : Server).

(** ** The handlers *)

Definition toTodo (t : todoModel) : todo :=
  {| Wire.ID := bson.Hex (Model.ID t)
   ; Wire.Title := Model.Title t
   ; Wire.Completed := Model.Completed t
   ; Wire.CreatedAt := Model.CreatedAt t |}.

Definition fetchTodos (e : Env) (r : Request) (s : Server)
    (w : ResponseWriter) : outcome :=
  match mgo.All (link e) (todos s) with
  | None => Panic s
  | Some (inl err) =>
      Done (rnd.JSON w StatusProcessing
              (M [ ("message"%string, JString (str "Failed to fetch the Todos."))
                 ; ("error"%string, JError err) ])) s
  | Some (inr found) =>
      let todoList := map toTodo found in
      Done (rnd.JSON w StatusOK (M [("data"%string, JTodos todoList)])) s
  end.

(** The [todoModel] literal of [createTodo]; [i] is the object id counter
    after its increment. *)
Definition newTodoModel (e : Env) (s : Server) (i : Z) (t : todo)
  : todoModel :=
  {| Model.ID := bson.NewObjectId (clock e / 1000000000) (machineId s)
                   (processId s) i
   ; Model.Title := Wire.Title t
   ; Model.Completed := Wire.Completed t
   ; Model.CreatedAt := now e |}.

Definition createTodo (e : Env) (r : Request) (s : Server)
    (w : ResponseWriter) : outcome :=
  match Decode r with
  | inl err => Done (rnd.JSON w StatusProcessing (V err)) s
  | inr t =>
      match Wire.Title t with
      | [] =>
          Done (rnd.JSON w StatusBadRequest
                  (M [("message"%string, JString (str "Todo had no title!"))])) s
      | _ :: _ =>
          let i := (objectIdCounter s + 1) mod 2 ^ 32 in
          let s1 := with_counter s i in
          let tm := newTodoModel e s i t in
          match mgo.Insert (link e) tm (todos s1) with
          | None => Panic s1
          | Some (inl _) =>
              Done (rnd.JSON w StatusProcessing
                      (M [("message"%string, JString (str "Failed to save todo."))])) s1
          | Some (inr c) =>
              Done (rnd.JSON w StatusCreated
                      (M [ ("message"%string, JString (str "Todo created successfully!"))
                         ; ("todo_id"%string, JString (bson.Hex (Model.ID tm))) ]))
                   (with_todos s1 c)
          end
      end
  end.

Definition deleteTodo (e : Env) (r : Request) (s : Server)
    (w : ResponseWriter) : outcome :=
  let id := strings.TrimSpace (URLParam_id r) in
  if negb (bson.IsObjectIdHex id) then
    Done (rnd.JSON w StatusBadRequest
            (M [("message"%string, JString (str "Id is invalid!"))])) s
  else
    match bson.ObjectIdHex id with
    | None => Panic s
    | Some oid =>
        match mgo.RemoveId (link e) oid (todos s) with
        | inl _ =>
            Done (rnd.JSON w StatusProcessing
                    (M [ ("message"%string, JString (str "Failed to delete todo!"))
                       ; ("todo_id"%string, JString id) ])) s
        | inr c =>
            Done (rnd.JSON w StatusOK
                    (M [ ("message"%string, JString (str "Todo deleted succesfully!"))
                       ; ("todo_id"%string, JString id) ]))
                 (with_todos s c)
        end
    end.

Definition updateTodo (e : Env) (r : Request) (s : Server)
    (w : ResponseWriter) : outcome :=
  let id := strings.TrimSpace (URLParam_id r) in
  if negb (bson.IsObjectIdHex id) then
    Done (rnd.JSON w StatusBadRequest
            (M [("message"%string, JString (str "The id is invalid!"))])) s
  else
    match Decode r with
    | inl err => Done (rnd.JSON w StatusProcessing (V err)) s
    | inr t =>
        match Wire.Title t with
        | [] =>
            Done (rnd.JSON w StatusBadRequest
                    (M [("message"%string, JString (str "The title is empty!"))])) s
        | _ :: _ =>
            match bson.ObjectIdHex id with
            | None => Panic s
            | Some oid =>
                match mgo.Update (link e) (mgo.byId oid)
                        [ ("title"%string, bson.VString (Wire.Title t))
                        ; ("completed"%string, bson.VBool (Wire.Completed t)) ]
                        (todos s) with
                | inl err =>
                    Done (rnd.JSON w StatusProcessing
                            (M [ ("message"%string, JString (str "Failed to update todo!"))
                               ; ("error"%string, JError err) ])) s
                | inr c => Done w (with_todos s c)
                end
            end
        end
    end.

(** The routes of [todoHandlers]. *)
Inductive route := GetTodos | PostTodo | PutTodo | DeleteTodo.

Definition todoHandlers (op : route)
  : Env -> Request -> Server -> ResponseWriter -> outcome :=
  match op with
  | GetTodos => fetchTodos
  | PostTodo => createTodo
  | PutTodo => updateTodo
  | DeleteTodo => deleteTodo
  end.

(** ** Vocabulary of the properties *)

(** A character of a lowercase hexadecimal string. *)
Definition isLowerHex (c : rune) : bool :=
  ((48 <=? c) && (c <=? 57)) || ((97 <=? c) && (c <=? 102)).

(** A character [hex.DecodeString] accepts. *)
Definition isHexDigit (c : rune) : bool :=
  match hex.fromHexChar c with Some _ => true | None => false end.

(** What [hex.encodeByte] is checked for, byte by byte: two lowercase
    digits that decode to the byte. *)
Definition encodeByte_check (b : byte) : bool :=
  match hex.encodeByte b with
  | [c1; c2] =>
      isLowerHex c1 && isLowerHex c2 &&
      match hex.fromHexChar c1, hex.fromHexChar c2 with
      | Some x, Some y =>
          if Byte.byte_eq_dec (byte_of_Z (Z.lor (Z.shiftl x 4) y)) b
          then true else false
      | _, _ => false
      end
  | _ => false
  end.

(** The new [ObjectId] a create request gets in state [s]. *)
Definition nextObjectId (e : Env) (s : Server) : bson.ObjectId :=
  bson.NewObjectId (clock e / 1000000000) (machineId s) (processId s)
    ((objectIdCounter s + 1) mod 2 ^ 32).

(** No document of the collection has [oid] as its [_id]. *)
Definition absent (oid : bson.ObjectId) (c : mgo.Collection) : Prop :=
  forall d, In d c -> bson.lookup "_id" d <> Some (bson.VObjectId oid).

(** Some document of the collection has [oid] as its [_id]. *)
Definition stored (oid : bson.ObjectId) (c : mgo.Collection) : Prop :=
  exists d, In d c /\ bson.lookup "_id" d = Some (bson.VObjectId oid).

(** The unique index MongoDB keeps on [_id]. *)
Definition unique_ids (c : mgo.Collection) : Prop :=
  NoDup (map (bson.lookup "_id") c).

Definition fields (p : payload) : list (string * jvalue) :=
  match p with
  | M kv => kv
  | V _ => []
  end.

(** The record [t] appears in the [data] list of the response. *)
Definition listed (resp : Response) (t : todo) : Prop :=
  exists l, In ("data"%string, JTodos l) (fields (body resp)) /\ In t l.

(** The server state a request leaves, whether its handler returned or
    panicked. *)
Definition leaves (o : outcome) : Server :=
  match o with
  | Done _ s => s
  | Panic s => s
  end.

(** [later s s']: [s'] is reached from [s] by any number of requests. *)
Inductive later : Server -> Server -> Prop :=
| later_refl s : later s s
| later_step s op e r w s2 :
    later (leaves (todoHandlers op e r s w)) s2 ->
    later s s2.

(** The id the handler validates and uses. *)
Definition pathId (r : Request) : gostring :=
  strings.TrimSpace (URLParam_id r).

(** The update document of [updateTodo]. *)
Definition updateDoc (t : todo) : bson.Doc :=
  [ ("title"%string, bson.VString (Wire.Title t))
  ; ("completed"%string, bson.VBool (Wire.Completed t)) ].




(** ** A running example: one record in the collection, then edited *)

Definition ex_empty : Server :=
  mkServer (Byte.x01, Byte.x02, Byte.x03) 4660 0 [].

Definition ex_env : Env :=
  mkEnv None 1700000000123456789 1700000000223456789.

Definition ex_todo : todo := Wire.mk [] (str "buy milk") false 0.

Definition ex_edit : todo := Wire.mk [] (str "buy bread") true 0.

(** The object id a create request draws on [ex_empty]:
    6553f1000102031234000001. *)
Definition ex_oid : bson.ObjectId := nextObjectId ex_env ex_empty.

(** A record of the collection, as a client of the database whose struct
    tags are well-formed stores "buy milk". *)
Definition ex_doc : bson.Doc :=
  [ ("_id"%string, bson.VObjectId ex_oid)
  ; ("title"%string, bson.VString (str "buy milk"))
  ; ("completed"%string, bson.VBool false)
  ; ("created_at"%string, bson.VTime 1700000000223) ].

(** The server with that record in its collection. *)
Definition ex_stored : Server :=
  mkServer (Byte.x01, Byte.x02, Byte.x03) 4660 1 [ex_doc].


Definition ex_get : Request := mkRequest [] (inl (ErrJSON "EOF")).

Definition ex_post : Request := mkRequest [] (inr ex_todo).

Definition ex_put : Request := mkRequest (bson.Hex ex_oid) (inr ex_edit).

Definition ex_delete : Request :=
  mkRequest (bson.Hex ex_oid) (inl (ErrJSON "EOF")).

(** The claim that an update of an id no record has ends like a successful
    update: the handler returns without writing a response. *)
Definition update_of_missing_id_succeeds : Prop :=
  forall e r s w t oid,
    bson.ObjectIdHex (pathId r) = Some oid ->
    Decode r = inr t -> Wire.Title t <> [] ->
    absent oid (todos s) ->
    exists s', updateTodo e r s w = Done w s'.

(** ** Vocabulary of the further properties *)

(** An ASCII letter [a]..[f] in upper case, any other character as it is. *)
Definition toUpperHex (c : rune) : rune :=
  if (97 <=? c) && (c <=? 102) then c - 32 else c.

(** An ASCII letter [A]..[F] in lower case, any other character as it is. *)
Definition toLowerHex (c : rune) : rune :=
  if (65 <=? c) && (c <=? 70) then c + 32 else c.

(** The digit [hex.EncodeToString] writes for a nibble. *)
Definition digit (x : Z) : rune := nth (Z.to_nat x) hex.hextable 0.

Definition nibbles : list Z :=
  [0; 1; 2; 3; 4; 5; 6; 7; 8; 9; 10; 11; 12; 13; 14; 15].

(** What [hex.encodeByte] is checked for, nibble by nibble: the byte made
    of two nibbles encodes as their two digits. *)
Definition nibbles_check : bool :=
  forallb (fun x =>
    forallb (fun y =>
      match hex.encodeByte (byte_of_Z (Z.lor (Z.shiftl x 4) y)) with
      | [a; b] => (a =? digit x) && (b =? digit y)
      | _ => false
      end) nibbles) nibbles.

(** A hexadecimal digit, in either case. *)
Definition isHexadecimal (c : rune) : bool :=
  ((48 <=? c) && (c <=? 57)) || ((97 <=? c) && (c <=? 102))
  || ((65 <=? c) && (c <=? 70)).

(** Two documents with the same element under every key. *)
Definition same_fields (d1 d2 : bson.Doc) : Prop :=
  forall k, bson.lookup k d1 = bson.lookup k d2.

(** One response of the given status, and nothing else, was written. *)
Definition answers (w w' : ResponseWriter) (st : Z) : Prop :=
  exists resp, w' = w ++ [resp] /\ status resp = st.

(** What a request does to the collection, by its outcome [o]: nothing,
    unless it is an update that returned without a response or a delete
    answered 200. *)
Inductive change (r : Request) (s : Server) (w : ResponseWriter)
    (o : outcome) : route -> Prop :=
| chg_none op :
    todos (leaves o) = todos s ->
    (op = PutTodo -> forall s', o <> Done w s') ->
    (op = DeleteTodo -> forall w' s', o = Done w' s' ->
                        ~ answers w w' StatusOK) ->
    change r s w o op
| chg_update oid t s' :
    bson.ObjectIdHex (pathId r) = Some oid ->
    Decode r = inr t -> Wire.Title t <> [] ->
    o = Done w s' ->
    mgo.updateFirst (mgo.byId oid) (updateDoc t) (todos s) = Some (todos s') ->
    change r s w o PutTodo
| chg_remove oid w' s' :
    bson.ObjectIdHex (pathId r) = Some oid ->
    o = Done w' s' ->
    answers w w' StatusOK ->
    mgo.removeFirst (mgo.byId oid) (todos s) = Some (todos s') ->
    change r s w o DeleteTodo.


(** A string without a comma. *)
Fixpoint noComma (s : string) : bool :=
  match s with
  | EmptyString => true
  | String c rest => negb (Ascii.eqb c ",") && noComma rest
  end.




(** ** Hexadecimal encoding *)

Lemma encodeByte_checked (b : byte) : encodeByte_check b = true.
Proof. destruct b; vm_compute; reflexivity. Qed.

Lemma encodeByte_shape (b : byte) :
  exists c1 c2 x y,
    hex.encodeByte b = [c1; c2] /\
    isLowerHex c1 = true /\ isLowerHex c2 = true /\
    hex.fromHexChar c1 = Some x /\ hex.fromHexChar c2 = Some y /\
    byte_of_Z (Z.lor (Z.shiftl x 4) y) = b.
Proof.
  pose proof (encodeByte_checked b) as H. unfold encodeByte_check in H.
  destruct (hex.encodeByte b) as [|c1 [|c2 [|? ?]]]; try discriminate.
  apply andb_true_iff in H. destruct H as [H H3].
  apply andb_true_iff in H. destruct H as [H1 H2].
  destruct (hex.fromHexChar c1) as [x|] eqn:F1; try discriminate.
  destruct (hex.fromHexChar c2) as [y|] eqn:F2; try discriminate.
  destruct (Byte.byte_eq_dec _ b); try discriminate.
  exists c1, c2, x, y. repeat split; assumption.
Qed.

Lemma Decode_Encode (l : list byte) :
  hex.DecodeString (hex.EncodeToString l) = Some l.
Proof.
  induction l as [|b l IH]; [reflexivity|].
  destruct (encodeByte_shape b) as (c1 & c2 & x & y & E & _ & _ & F1 & F2 & B).
  unfold hex.EncodeToString in *. cbn [flat_map]. rewrite E.
  cbn [app hex.DecodeString]. rewrite F1, F2, IH, B. reflexivity.
Qed.

Lemma Encode_length (l : list byte) :
  List.length (hex.EncodeToString l) = (2 * List.length l)%nat.
Proof.
  induction l as [|b l IH]; [reflexivity|].
  destruct (encodeByte_shape b) as (c1 & c2 & x & y & E & _).
  unfold hex.EncodeToString in *. cbn [flat_map]. rewrite E.
  cbn [app List.length]. rewrite IH. lia.
Qed.

Lemma Encode_lower (l : list byte) :
  Forall (fun c => isLowerHex c = true) (hex.EncodeToString l).
Proof.
  induction l as [|b l IH]; [constructor|].
  destruct (encodeByte_shape b) as (c1 & c2 & x & y & E & L1 & L2 & _).
  unfold hex.EncodeToString in *. cbn [flat_map]. rewrite E.
  cbn [app]. constructor; [assumption|]. constructor; assumption.
Qed.

Lemma Hex_inj (a b : bson.ObjectId) : bson.Hex a = bson.Hex b -> a = b.
Proof.
  unfold bson.Hex. intros H.
  pose proof (Decode_Encode a) as Ea. pose proof (Decode_Encode b) as Eb.
  rewrite H in Ea. congruence.
Qed.

Lemma Decode_length (d : list byte) :
  forall s, hex.DecodeString s = Some d ->
            List.length s = (2 * List.length d)%nat.
Proof.
  induction d as [|x d IH]; intros [|a [|b rest]] H; cbn in H;
    try discriminate; try reflexivity.
  - destruct (hex.fromHexChar a), (hex.fromHexChar b),
      (hex.DecodeString rest); discriminate.
  - destruct (hex.fromHexChar a), (hex.fromHexChar b); try discriminate.
    destruct (hex.DecodeString rest) as [bs|] eqn:R; try discriminate.
    inversion H; subst. cbn [List.length]. rewrite (IH rest R). lia.
Qed.

Lemma Decode_digits (s : gostring) :
  forall d, hex.DecodeString s = Some d ->
            Forall (fun c => isHexDigit c = true) s.
Proof.
  assert (forall n s, (List.length s <= n)%nat -> forall d,
             hex.DecodeString s = Some d ->
             Forall (fun c => isHexDigit c = true) s) as G.
  { induction n as [|n IH]; intros [|a [|b rest]] L d H; cbn in L, H;
      try discriminate; try constructor; try lia.
    - unfold isHexDigit. destruct (hex.fromHexChar a); [reflexivity|discriminate].
    - unfold isHexDigit at 1.
      destruct (hex.fromHexChar a); try discriminate.
      destruct (hex.fromHexChar b) eqn:Fb; try discriminate.
      destruct (hex.DecodeString rest) as [bs|] eqn:R; try discriminate.
      constructor.
      + unfold isHexDigit. rewrite Fb. reflexivity.
      + apply (IH rest) with (d := bs); [lia|assumption]. }
  intros d H. apply (G (List.length s) s (le_n _) d H).
Qed.

Lemma hexDigit_not_space (c : rune) :
  isHexDigit c = true -> unicode.IsSpace c = false.
Proof.
  unfold isHexDigit, hex.fromHexChar, unicode.IsSpace. intros H.
  destruct ((48 <=? c) && (c <=? 57)) eqn:A;
    [|destruct ((97 <=? c) && (c <=? 102)) eqn:B;
      [|destruct ((65 <=? c) && (c <=? 70)) eqn:C; [|discriminate]]];
    match goal with
    | E : (_ && _) = true |- _ =>
        apply andb_true_iff in E; destruct E as [E1 E2];
        apply Z.leb_le in E1; apply Z.leb_le in E2
    end;
    (replace ((0 <=? c) && (c <=? 255)) with true
      by (symmetry; apply andb_true_iff; split; apply Z.leb_le; lia));
    repeat (apply orb_false_iff; split); apply Z.eqb_neq; lia.
Qed.

(** ** Object ids *)

Lemma ObjectIdHex_valid (s : gostring) (oid : bson.ObjectId) :
  bson.ObjectIdHex s = Some oid ->
  bson.IsObjectIdHex s = true /\ List.length oid = 12%nat.
Proof.
  unfold bson.ObjectIdHex, bson.IsObjectIdHex. intros H.
  destruct (hex.DecodeString s) as [d|] eqn:D; try discriminate.
  destruct (Nat.eqb (List.length d) 12) eqn:L; try discriminate.
  inversion H; subst. apply Nat.eqb_eq in L.
  split; [|assumption].
  rewrite (Decode_length _ _ D), L. reflexivity.
Qed.

Lemma IsObjectIdHex_decodes (s : gostring) :
  bson.IsObjectIdHex s = true -> exists oid, bson.ObjectIdHex s = Some oid.
Proof.
  unfold bson.ObjectIdHex, bson.IsObjectIdHex. intros H.
  destruct (Nat.eqb (List.length s) 24) eqn:L; try discriminate.
  destruct (hex.DecodeString s) as [d|] eqn:D; try discriminate.
  apply Nat.eqb_eq in L. pose proof (Decode_length _ _ D) as E.
  exists d. replace (List.length d) with 12%nat by lia. reflexivity.
Qed.

Lemma ObjectIdHex_Hex (oid : bson.ObjectId) :
  List.length oid = 12%nat -> bson.ObjectIdHex (bson.Hex oid) = Some oid.
Proof.
  intros L. unfold bson.ObjectIdHex, bson.Hex.
  rewrite Decode_Encode, L. reflexivity.
Qed.

Lemma NewObjectId_length unix m p i :
  List.length (bson.NewObjectId unix m p i) = 12%nat.
Proof. destruct m as [[m0 m1] m2]. reflexivity. Qed.

(** ** Trimming *)

Section Trim.
Variable f : rune -> bool.

Lemma TrimLeft_all (l : gostring) :
  forallb f l = true -> strings.TrimLeftFunc f l = [].
Proof.
  induction l as [|c l IH]; cbn; [reflexivity|].
  intros H. apply andb_true_iff in H. destruct H as [Hc Hl].
  rewrite Hc. auto.
Qed.

Lemma TrimLeft_app_l (l x : gostring) :
  forallb f l = true ->
  strings.TrimLeftFunc f (l ++ x) = strings.TrimLeftFunc f x.
Proof.
  induction l as [|c l IH]; cbn; [reflexivity|].
  intros H. apply andb_true_iff in H. destruct H as [Hc Hl].
  rewrite Hc. auto.
Qed.

Lemma TrimLeft_nil (x : gostring) :
  strings.TrimLeftFunc f x = [] -> forallb f x = true.
Proof.
  induction x as [|c x IH]; cbn; [reflexivity|].
  destruct (f c); [exact IH|discriminate].
Qed.

Lemma TrimLeft_app_r (x r : gostring) :
  strings.TrimLeftFunc f x <> [] ->
  strings.TrimLeftFunc f (x ++ r) = strings.TrimLeftFunc f x ++ r.
Proof.
  induction x as [|c x IH]; cbn; [congruence|].
  destruct (f c); [exact IH|reflexivity].
Qed.

Lemma forallb_rev (l : gostring) :
  forallb f l = true -> forallb f (rev l) = true.
Proof.
  intros H. apply forallb_forall. intros c Hc.
  apply in_rev in Hc. revert c Hc. apply forallb_forall. exact H.
Qed.

Lemma TrimRight_app_r (y r : gostring) :
  forallb f r = true ->
  strings.TrimRightFunc f (y ++ r) = strings.TrimRightFunc f y.
Proof.
  intros H. unfold strings.TrimRightFunc.
  rewrite rev_app_distr, TrimLeft_app_l; [reflexivity|].
  apply forallb_rev; exact H.
Qed.

Lemma TrimLeft_keeps (x : gostring) :
  Forall (fun c => f c = false) x -> strings.TrimLeftFunc f x = x.
Proof. intros H. destruct H as [|c x Hc _]; cbn; [|rewrite Hc]; reflexivity. Qed.

Lemma TrimRight_keeps (x : gostring) :
  Forall (fun c => f c = false) x -> strings.TrimRightFunc f x = x.
Proof.
  intros H. unfold strings.TrimRightFunc.
  rewrite TrimLeft_keeps; [apply rev_involutive|].
  apply Forall_rev; exact H.
Qed.
End Trim.

Lemma TrimSpace_padded (lead id trail : gostring) :
  forallb unicode.IsSpace lead = true ->
  forallb unicode.IsSpace trail = true ->
  strings.TrimSpace (lead ++ id ++ trail) = strings.TrimSpace id.
Proof.
  intros Hl Ht. unfold strings.TrimSpace.
  rewrite TrimLeft_app_l by exact Hl.
  destruct (strings.TrimLeftFunc unicode.IsSpace id) as [|c y] eqn:E.
  - apply TrimLeft_nil in E.
    rewrite TrimLeft_app_l by exact E.
    rewrite TrimLeft_all by exact Ht. reflexivity.
  - rewrite TrimLeft_app_r by (rewrite E; discriminate).
    rewrite E. apply TrimRight_app_r. exact Ht.
Qed.

Lemma TrimSpace_hex (id : gostring) :
  bson.IsObjectIdHex id = true -> strings.TrimSpace id = id.
Proof.
  intros H. destruct (IsObjectIdHex_decodes id H) as [oid D].
  unfold bson.ObjectIdHex in D.
  destruct (hex.DecodeString id) as [d|] eqn:E; try discriminate.
  assert (Forall (fun c => unicode.IsSpace c = false) id) as N.
  { eapply Forall_impl; [|exact (Decode_digits id d E)].
    intros c. apply hexDigit_not_space. }
  unfold strings.TrimSpace.
  rewrite TrimLeft_keeps by exact N. apply TrimRight_keeps. exact N.
Qed.

(** ** The collection *)

Lemma matches_byId (oid : bson.ObjectId) (d : bson.Doc) :
  mgo.matches (mgo.byId oid) d = true <->
  bson.lookup "_id" d = Some (bson.VObjectId oid).
Proof.
  unfold mgo.matches, mgo.byId. cbn [forallb fst snd].
  rewrite andb_true_r.
  destruct (bson.lookup "_id" d) as [v|]; [|split; discriminate].
  destruct (bson.value_eq_dec v (bson.VObjectId oid)) as [->|N].
  - split; reflexivity.
  - split; [discriminate|]. intros H. inversion H. contradiction.
Qed.

Lemma matches_absent oid c d :
  absent oid c -> In d c -> mgo.matches (mgo.byId oid) d = false.
Proof.
  intros A I. destruct (mgo.matches (mgo.byId oid) d) eqn:E; [|reflexivity].
  apply matches_byId in E. elim (A d I E).
Qed.

Lemma absent_cons oid d c :
  absent oid (d :: c) <->
  bson.lookup "_id" d <> Some (bson.VObjectId oid) /\ absent oid c.
Proof.
  unfold absent. split.
  - intros A. split; [apply A; left; reflexivity|].
    intros d' I. apply A. right. exact I.
  - intros [A1 A2] d' [<-|I]; auto.
Qed.

Lemma existsb_absent oid c :
  existsb (mgo.matches (mgo.byId oid)) c = false <-> absent oid c.
Proof.
  induction c as [|d c IH]; cbn [existsb].
  - split; [intros _ d []|reflexivity].
  - rewrite absent_cons, orb_false_iff, IH.
    split; intros [A B]; split; try assumption.
    + intros E. apply matches_byId in E. congruence.
    + destruct (mgo.matches (mgo.byId oid) d) eqn:E; [|reflexivity].
      apply matches_byId in E. contradiction.
Qed.

Lemma removeFirst_absent oid c :
  absent oid c -> mgo.removeFirst (mgo.byId oid) c = None.
Proof.
  induction c as [|d c IH]; intros A; cbn [mgo.removeFirst]; [reflexivity|].
  apply absent_cons in A. destruct A as [A1 A2].
  rewrite (matches_absent oid [d] d), (IH A2); [reflexivity| |left; reflexivity].
  apply absent_cons. split; [exact A1|intros ? []].
Qed.

Lemma updateFirst_absent oid u c :
  absent oid c -> mgo.updateFirst (mgo.byId oid) u c = None.
Proof.
  induction c as [|d c IH]; intros A; cbn [mgo.updateFirst]; [reflexivity|].
  apply absent_cons in A. destruct A as [A1 A2].
  rewrite (matches_absent oid [d] d), (IH A2); [reflexivity| |left; reflexivity].
  apply absent_cons. split; [exact A1|intros ? []].
Qed.

Lemma removeFirst_stored oid c :
  stored oid c -> exists c', mgo.removeFirst (mgo.byId oid) c = Some c'.
Proof.
  intros (d & I & E). induction c as [|d' c IH]; [destruct I|].
  cbn [mgo.removeFirst].
  destruct (mgo.matches (mgo.byId oid) d') eqn:Md; [eauto|].
  destruct I as [->|I].
  - apply matches_byId in E. congruence.
  - destruct (IH I) as [c' ->]. eauto.
Qed.

Lemma removeFirst_unique oid c c' :
  unique_ids c -> mgo.removeFirst (mgo.byId oid) c = Some c' ->
  absent oid c' /\ unique_ids c' /\ (forall d, In d c' -> In d c).
Proof.
  unfold unique_ids. revert c'.
  induction c as [|d c IH]; intros c' U R; cbn [mgo.removeFirst] in R;
    [discriminate|].
  cbn [map] in U. inversion U as [|? ? Hn Hc]; subst.
  destruct (mgo.matches (mgo.byId oid) d) eqn:Md.
  - inversion R; subst. apply matches_byId in Md.
    split; [|split; [exact Hc|intros; right; assumption]].
    intros d' I E. apply Hn. rewrite Md, <- E. apply in_map. exact I.
  - destruct (mgo.removeFirst (mgo.byId oid) c) as [rest|] eqn:Rr;
      [|discriminate].
    inversion R; subst. destruct (IH rest Hc eq_refl) as (A & U' & S).
    split; [|split].
    + apply absent_cons. split; [|exact A].
      intros E. apply matches_byId in E. congruence.
    + cbn [map]. constructor; [|exact U'].
      intros I. apply Hn. apply in_map_iff in I.
      destruct I as (d' & E & I). rewrite <- E. apply in_map. auto.
    + intros d' [<-|I]; [left; reflexivity|right; auto].
Qed.

Lemma replacement_id (d u : bson.Doc) :
  bson.lookup "_id" u = None ->
  bson.lookup "_id" (mgo.replacement d u) = bson.lookup "_id" d.
Proof.
  intros N. unfold mgo.replacement.
  destruct (bson.lookup "_id" d) as [k|]; [reflexivity|exact N].
Qed.

Lemma updateFirst_ids sel u c c' :
  bson.lookup "_id" u = None ->
  mgo.updateFirst sel u c = Some c' ->
  map (bson.lookup "_id") c' = map (bson.lookup "_id") c.
Proof.
  intros N. revert c'.
  induction c as [|d c IH]; intros c' R; cbn [mgo.updateFirst] in R;
    [discriminate|].
  destruct (mgo.matches sel d).
  - inversion R; subst. cbn [map]. rewrite replacement_id by exact N.
    reflexivity.
  - destruct (mgo.updateFirst sel u c) as [rest|]; [|discriminate].
    inversion R; subst. cbn [map]. rewrite (IH rest eq_refl). reflexivity.
Qed.

Lemma absent_ids oid c c' :
  map (bson.lookup "_id") c' = map (bson.lookup "_id") c ->
  absent oid c -> absent oid c'.
Proof.
  intros E A d I H.
  assert (In (bson.lookup "_id" d) (map (bson.lookup "_id") c)) as J
    by (rewrite <- E; apply in_map; exact I).
  apply in_map_iff in J. destruct J as (d' & E' & I').
  apply (A d' I'). congruence.
Qed.

Lemma absent_app oid c d :
  absent oid c -> bson.lookup "_id" d <> Some (bson.VObjectId oid) ->
  absent oid (c ++ [d]).
Proof.
  intros A N d' I. apply in_app_or in I.
  destruct I as [I|[<-|[]]]; [apply A; exact I|exact N].
Qed.

(** ** The struct tags of todoModel *)

Lemma todoModel_tags_rejected : getStructInfo todoModel_tags = None.
Proof. reflexivity. Qed.

Lemma marshal_panics (tm : todoModel) : marshal tm = None.
Proof. reflexivity. Qed.

Lemma unmarshal_panics (d : bson.Doc) : unmarshal d = None.
Proof. reflexivity. Qed.

Lemma Insert_panics link tm c : mgo.Insert link tm c = None.
Proof. reflexivity. Qed.

Lemma unmarshalAll_cases (c : mgo.Collection) :
  mgo.unmarshalAll c = match c with [] => Some [] | _ :: _ => None end.
Proof. destruct c; reflexivity. Qed.

(** ** The handlers, branch by branch *)

Lemma deleteTodo_invalid e r s w :
  bson.IsObjectIdHex (pathId r) = false ->
  deleteTodo e r s w =
  Done (w ++ [mkResponse StatusBadRequest
                (M [("message"%string, JString (str "Id is invalid!"))])]) s.
Proof. unfold deleteTodo, pathId. intros ->. reflexivity. Qed.

Lemma deleteTodo_valid e r s w oid :
  bson.ObjectIdHex (pathId r) = Some oid ->
  deleteTodo e r s w =
  match mgo.RemoveId (link e) oid (todos s) with
  | inl _ =>
      Done (w ++ [mkResponse StatusProcessing
                    (M [ ("message"%string, JString (str "Failed to delete todo!"))
                       ; ("todo_id"%string, JString (pathId r)) ])]) s
  | inr c =>
      Done (w ++ [mkResponse StatusOK
                    (M [ ("message"%string, JString (str "Todo deleted succesfully!"))
                       ; ("todo_id"%string, JString (pathId r)) ])])
           (with_todos s c)
  end.
Proof.
  intros H. destruct (ObjectIdHex_valid _ _ H) as [V _].
  unfold deleteTodo, pathId in *. rewrite V, H. reflexivity.
Qed.

Lemma updateTodo_invalid e r s w :
  bson.IsObjectIdHex (pathId r) = false ->
  updateTodo e r s w =
  Done (w ++ [mkResponse StatusBadRequest
                (M [("message"%string, JString (str "The id is invalid!"))])]) s.
Proof. unfold updateTodo, pathId. intros ->. reflexivity. Qed.

Lemma updateTodo_undecodable e r s w err :
  bson.IsObjectIdHex (pathId r) = true -> Decode r = inl err ->
  updateTodo e r s w = Done (w ++ [mkResponse StatusProcessing (V err)]) s.
Proof. unfold updateTodo, pathId. intros -> ->. reflexivity. Qed.

Lemma updateTodo_untitled e r s w t :
  bson.IsObjectIdHex (pathId r) = true ->
  Decode r = inr t -> Wire.Title t = [] ->
  updateTodo e r s w =
  Done (w ++ [mkResponse StatusBadRequest
                (M [("message"%string, JString (str "The title is empty!"))])]) s.
Proof. unfold updateTodo, pathId. intros -> -> ->. reflexivity. Qed.

Lemma updateTodo_valid e r s w t oid :
  bson.ObjectIdHex (pathId r) = Some oid ->
  Decode r = inr t -> Wire.Title t <> [] ->
  updateTodo e r s w =
  match mgo.Update (link e) (mgo.byId oid) (updateDoc t) (todos s) with
  | inl err =>
      Done (w ++ [mkResponse StatusProcessing
                    (M [ ("message"%string, JString (str "Failed to update todo!"))
                       ; ("error"%string, JError err) ])]) s
  | inr c => Done w (with_todos s c)
  end.
Proof.
  intros H D T. destruct (ObjectIdHex_valid _ _ H) as [Vd _].
  unfold updateTodo, updateDoc, pathId in *. rewrite Vd, D, H.
  destruct (Wire.Title t); [congruence|reflexivity].
Qed.

Lemma createTodo_undecodable e r s w err :
  Decode r = inl err ->
  createTodo e r s w = Done (w ++ [mkResponse StatusProcessing (V err)]) s.
Proof. unfold createTodo. intros ->. reflexivity. Qed.

Lemma createTodo_untitled e r s w t :
  Decode r = inr t -> Wire.Title t = [] ->
  createTodo e r s w =
  Done (w ++ [mkResponse StatusBadRequest
                (M [("message"%string, JString (str "Todo had no title!"))])]) s.
Proof. unfold createTodo. intros -> ->. reflexivity. Qed.

(** Past the title check the handler draws the object id, builds the
    [todoModel] and hands it to [Insert]. *)
Lemma createTodo_titled e r s w t :
  Decode r = inr t -> Wire.Title t <> [] ->
  createTodo e r s w =
  let i := (objectIdCounter s + 1) mod 2 ^ 32 in
  let tm := newTodoModel e s i t in
  match mgo.Insert (link e) tm (todos s) with
  | None => Panic (with_counter s i)
  | Some (inl _) =>
      Done (w ++ [mkResponse StatusProcessing
                    (M [("message"%string, JString (str "Failed to save todo."))])])
           (with_counter s i)
  | Some (inr c) =>
      Done (w ++ [mkResponse StatusCreated
                    (M [ ("message"%string, JString (str "Todo created successfully!"))
                       ; ("todo_id"%string, JString (bson.Hex (Model.ID tm))) ])])
           (with_todos (with_counter s i) c)
  end.
Proof.
  intros D T. unfold createTodo, newTodoModel. rewrite D.
  destruct (Wire.Title t); [congruence|reflexivity].
Qed.

Lemma createTodo_panics e r s w t :
  Decode r = inr t -> Wire.Title t <> [] ->
  createTodo e r s w =
  Panic (with_counter s ((objectIdCounter s + 1) mod 2 ^ 32)).
Proof.
  intros D T. rewrite (createTodo_titled e r s w t D T). reflexivity.
Qed.

Lemma fetchTodos_failed e r s w err :
  link e = Some err ->
  fetchTodos e r s w =
  Done (w ++ [mkResponse StatusProcessing
                (M [ ("message"%string, JString (str "Failed to fetch the Todos."))
                   ; ("error"%string, JError err) ])]) s.
Proof. unfold fetchTodos, mgo.All. intros ->. reflexivity. Qed.

Lemma fetchTodos_empty e r s w :
  link e = None -> todos s = [] ->
  fetchTodos e r s w =
  Done (w ++ [mkResponse StatusOK (M [("data"%string, JTodos [])])]) s.
Proof. unfold fetchTodos, mgo.All. intros -> ->. reflexivity. Qed.

Lemma fetchTodos_panics e r s w :
  link e = None -> todos s <> [] -> fetchTodos e r s w = Panic s.
Proof.
  unfold fetchTodos, mgo.All. intros -> N.
  rewrite unmarshalAll_cases. destruct (todos s); [congruence|reflexivity].
Qed.

(** ** Update *)

Lemma app_one_neq {A} (w : list A) (x : A) : w ++ [x] <> w.
Proof.
  intros H. apply (f_equal (@List.length A)) in H.
  rewrite length_app in H. cbn in H. lia.
Qed.

(** What a successful [Update] by id leaves: the matched document is
    replaced by its [_id] followed by the update document. *)
Lemma updateFirst_replaces oid u c c' :
  mgo.updateFirst (mgo.byId oid) u c = Some c' ->
  exists pre d post,
    c = pre ++ d :: post /\ absent oid pre /\
    bson.lookup "_id" d = Some (bson.VObjectId oid) /\
    c' = pre ++ (("_id"%string, bson.VObjectId oid) :: u) :: post.
Proof.
  revert c'. induction c as [|d c IH]; intros c' R;
    cbn [mgo.updateFirst] in R; [discriminate|].
  destruct (mgo.matches (mgo.byId oid) d) eqn:Md.
  - apply matches_byId in Md. inversion R; subst.
    exists [], d, c. unfold mgo.replacement. rewrite Md.
    repeat split; try reflexivity. intros ? [].
  - destruct (mgo.updateFirst (mgo.byId oid) u c) as [rest|]; [|discriminate].
    inversion R; subst.
    destruct (IH rest eq_refl) as (pre & d' & post & -> & A & L & ->).
    exists (d :: pre), d', post. repeat split; try assumption.
    apply absent_cons. split; [|exact A].
    intros E. apply matches_byId in E. congruence.
Qed.

Lemma lookup_other (k k' : string) (v : bson.value) (d : bson.Doc) :
  k <> k' -> bson.lookup k ((k', v) :: d) = bson.lookup k d.
Proof.
  intros N. cbn [bson.lookup].
  destruct (String.eqb_spec k k'); [contradiction|reflexivity].
Qed.

(** A successful update replaces the first document that has the object id
    of the request, where it stands: the document left under that id holds
    the id, the submitted title and the submitted completed flag, and no
    other element, whatever the document held before; the documents around
    it stay as they were. *)
Theorem updateTodo_replaces_record e r s w t oid s' :
  bson.ObjectIdHex (pathId r) = Some oid ->
  Decode r = inr t -> Wire.Title t <> [] ->
  updateTodo e r s w = Done w s' ->
  exists pre d d' post,
    todos s = pre ++ d :: post /\ absent oid pre /\
    bson.lookup "_id" d = Some (bson.VObjectId oid) /\
    todos s' = pre ++ d' :: post /\
    bson.lookup "_id" d' = Some (bson.VObjectId oid) /\
    bson.lookup "title" d' = Some (bson.VString (Wire.Title t)) /\
    bson.lookup "completed" d' = Some (bson.VBool (Wire.Completed t)) /\
    forall k, k <> "_id"%string -> k <> "title"%string ->
              k <> "completed"%string -> bson.lookup k d' = None.
Proof.
  intros H D T U. rewrite (updateTodo_valid e r s w t oid H D T) in U.
  unfold mgo.Update in U. destruct (link e).
  { injection U as W _. elim (app_one_neq _ _ W). }
  destruct (mgo.updateFirst _ _ _) as [c'|] eqn:R.
  2:{ injection U as W _. elim (app_one_neq _ _ W). }
  injection U as <-.
  destruct (updateFirst_replaces _ _ _ _ R) as (pre & d & post & E & A & L & ->).
  exists pre, d, (("_id"%string, bson.VObjectId oid) :: updateDoc t), post.
  repeat split; try assumption; try reflexivity.
  intros k N1 N2 N3. unfold updateDoc.
  rewrite !lookup_other by assumption. reflexivity.
Qed.

(** C1 (the code at the failing input): the collection holds one record,
    stored with a creation time; the update request [ex_put] validates,
    decodes and succeeds, and the document then stored under the same id
    has the new title and completed flag and no [created_at] element: the
    id is kept, the creation time is not. *)
Theorem C1_update_drops_created_at :
  todos ex_stored = [ex_doc] /\
  bson.lookup "created_at" ex_doc = Some (bson.VTime 1700000000223) /\
  exists d',
    updateTodo ex_env ex_put ex_stored [] =
      Done [] (with_todos ex_stored [d']) /\
    bson.lookup "_id" d' = bson.lookup "_id" ex_doc /\
    bson.lookup "title" d' = Some (bson.VString (str "buy bread")) /\
    bson.lookup "completed" d' = Some (bson.VBool true) /\
    bson.lookup "created_at" d' = None.
Proof.
  split; [reflexivity|]. split; [reflexivity|].
  exists (("_id"%string, bson.VObjectId ex_oid) :: updateDoc ex_edit).
  split; [vm_compute; reflexivity|]. repeat split.
Qed.

(** C2 (as stated, refuted): on the empty collection the update of a
    well-formed id with a decodable body and a title is answered with a
    failure response, so it does not end like a successful update. *)
Lemma C2_counterexample : ~ update_of_missing_id_succeeds.
Proof.
  intros C.
  destruct (C ex_env ex_put ex_empty [] ex_edit ex_oid) as [s' U].
  - vm_compute; reflexivity.
  - reflexivity.
  - discriminate.
  - intros d [].
  - vm_compute in U. discriminate U.
Qed.

(** C2 (amended): the handler makes no existence check of its own, but the
    driver's [Update] does not succeed when no record has the id: the
    handler answers with status 102 and the message "Failed to update
    todo!", carrying the driver's error, which is [ErrNotFound] when the
    round trip itself went through; the server state is unchanged. *)
Theorem C2_update_of_missing_id_fails e r s w t oid :
  bson.ObjectIdHex (pathId r) = Some oid ->
  Decode r = inr t -> Wire.Title t <> [] ->
  absent oid (todos s) ->
  exists err,
    updateTodo e r s w =
      Done (w ++ [mkResponse StatusProcessing
                    (M [ ("message"%string, JString (str "Failed to update todo!"))
                       ; ("error"%string, JError err) ])]) s /\
    (link e = None -> err = ErrNotFound).
Proof.
  intros H D T A. rewrite (updateTodo_valid e r s w t oid H D T).
  unfold mgo.Update. destruct (link e) as [err|].
  - exists err. split; [reflexivity|discriminate].
  - rewrite (updateFirst_absent oid _ _ A).
    exists ErrNotFound. split; reflexivity.
Qed.

Lemma C2_witness :
  exists err,
    updateTodo ex_env ex_put ex_empty [] =
      Done ([] ++ [mkResponse StatusProcessing
                    (M [ ("message"%string, JString (str "Failed to update todo!"))
                       ; ("error"%string, JError err) ])]) ex_empty /\
    (link ex_env = None -> err = ErrNotFound).
Proof.
  apply (C2_update_of_missing_id_fails ex_env ex_put ex_empty [] ex_edit ex_oid).
  - vm_compute; reflexivity.
  - reflexivity.
  - discriminate.
  - intros d [].
Defined.

(** C3: when the id validates, the body decodes, the title is not empty
    and the driver's [Update] succeeds, [updateTodo] returns with the
    response writer exactly as it received it: no [rnd.JSON] call, hence no
    status code and no body. *)
Theorem C3_update_success_writes_nothing e r s w t oid c :
  bson.IsObjectIdHex (pathId r) = true ->
  bson.ObjectIdHex (pathId r) = Some oid ->
  Decode r = inr t -> Wire.Title t <> [] ->
  mgo.Update (link e) (mgo.byId oid) (updateDoc t) (todos s) = inr c ->
  updateTodo e r s w = Done w (with_todos s c).
Proof.
  intros _ H D T U. rewrite (updateTodo_valid e r s w t oid H D T), U.
  reflexivity.
Qed.

Lemma C3_witness :
  updateTodo ex_env ex_put ex_stored [] =
  Done [] (with_todos ex_stored
             [(("_id"%string, bson.VObjectId ex_oid) :: updateDoc ex_edit)]).
Proof.
  apply (C3_update_success_writes_nothing ex_env ex_put ex_stored [] ex_edit ex_oid).
  - vm_compute; reflexivity.
  - vm_compute; reflexivity.
  - reflexivity.
  - discriminate.
  - vm_compute; reflexivity.
Defined.

(** ** Delete *)

(** C6: a delete whose trimmed path id is not a valid object id is answered
    with 400 and leaves the server state as it was; a delete whose id is
    well-formed but held by no record makes the driver's [RemoveId] fail,
    and is answered with status 102 and the id echoed, the state again
    unchanged. *)
Theorem C6_delete_failures e r s w :
  (bson.IsObjectIdHex (pathId r) = false ->
   deleteTodo e r s w =
     Done (w ++ [mkResponse StatusBadRequest
                   (M [("message"%string, JString (str "Id is invalid!"))])]) s) /\
  (forall oid,
     bson.ObjectIdHex (pathId r) = Some oid ->
     absent oid (todos s) ->
     (exists err, mgo.RemoveId (link e) oid (todos s) = inl err) /\
     mgo.RemoveId None oid (todos s) = inl ErrNotFound /\
     deleteTodo e r s w =
       Done (w ++ [mkResponse StatusProcessing
                     (M [ ("message"%string, JString (str "Failed to delete todo!"))
                        ; ("todo_id"%string, JString (pathId r)) ])]) s).
Proof.
  split; [apply deleteTodo_invalid|].
  intros oid H A. rewrite (deleteTodo_valid e r s w oid H).
  unfold mgo.RemoveId. rewrite (removeFirst_absent oid _ A).
  destruct (link e) as [err|]; repeat split; eauto.
Qed.

Lemma C6_witness :
  deleteTodo ex_env (mkRequest (str "not-an-id") (inl (ErrJSON "EOF")))
    ex_stored [] =
    Done [mkResponse StatusBadRequest
            (M [("message"%string, JString (str "Id is invalid!"))])] ex_stored /\
  deleteTodo ex_env ex_delete ex_empty [] =
    Done [mkResponse StatusProcessing
            (M [ ("message"%string, JString (str "Failed to delete todo!"))
               ; ("todo_id"%string, JString (str "6553f1000102031234000001")) ])]
         ex_empty.
Proof.
  split.
  - apply (proj1 (C6_delete_failures ex_env
                    (mkRequest (str "not-an-id") (inl (ErrJSON "EOF")))
                    ex_stored [])).
    vm_compute; reflexivity.
  - apply (proj2 (C6_delete_failures ex_env ex_delete ex_empty []) ex_oid).
    + vm_compute; reflexivity.
    + intros d [].
Defined.

(** ** The path id *)

(** C9: [deleteTodo] and [updateTodo] trim the path id before validating
    it: a request whose id is wrapped in white space is handled exactly as
    the request with the bare id.  A well-formed id so wrapped passes the
    validation as itself instead of being rejected as malformed: the delete
    goes on to [RemoveId] with the object id the bare id names and answers
    by its result, echoing the bare id; the update goes on to decode the
    body, check the title and call [Update] with that object id. *)
Theorem C9_path_id_trimmed lead trail id dec e s w :
  forallb unicode.IsSpace lead = true ->
  forallb unicode.IsSpace trail = true ->
  deleteTodo e (mkRequest (lead ++ id ++ trail) dec) s w =
    deleteTodo e (mkRequest id dec) s w /\
  updateTodo e (mkRequest (lead ++ id ++ trail) dec) s w =
    updateTodo e (mkRequest id dec) s w /\
  (bson.IsObjectIdHex id = true ->
   pathId (mkRequest (lead ++ id ++ trail) dec) = id /\
   bson.IsObjectIdHex (pathId (mkRequest (lead ++ id ++ trail) dec)) = true) /\
  (forall oid,
     bson.ObjectIdHex id = Some oid ->
     deleteTodo e (mkRequest (lead ++ id ++ trail) dec) s w =
       match mgo.RemoveId (link e) oid (todos s) with
       | inl _ =>
           Done (w ++ [mkResponse StatusProcessing
                         (M [ ("message"%string, JString (str "Failed to delete todo!"))
                            ; ("todo_id"%string, JString id) ])]) s
       | inr c =>
           Done (w ++ [mkResponse StatusOK
                         (M [ ("message"%string, JString (str "Todo deleted succesfully!"))
                            ; ("todo_id"%string, JString id) ])])
                (with_todos s c)
       end /\
     (forall err, dec = inl err ->
        updateTodo e (mkRequest (lead ++ id ++ trail) dec) s w =
          Done (w ++ [mkResponse StatusProcessing (V err)]) s) /\
     (forall t, dec = inr t -> Wire.Title t = [] ->
        updateTodo e (mkRequest (lead ++ id ++ trail) dec) s w =
          Done (w ++ [mkResponse StatusBadRequest
                        (M [("message"%string, JString (str "The title is empty!"))])]) s) /\
     (forall t, dec = inr t -> Wire.Title t <> [] ->
        updateTodo e (mkRequest (lead ++ id ++ trail) dec) s w =
          match mgo.Update (link e) (mgo.byId oid) (updateDoc t) (todos s) with
          | inl err =>
              Done (w ++ [mkResponse StatusProcessing
                            (M [ ("message"%string, JString (str "Failed to update todo!"))
                               ; ("error"%string, JError err) ])]) s
          | inr c => Done w (with_todos s c)
          end)).
Proof.
  intros Hl Ht.
  pose proof (TrimSpace_padded lead id trail Hl Ht) as E.
  assert (bson.IsObjectIdHex id = true ->
          pathId (mkRequest (lead ++ id ++ trail) dec) = id) as P.
  { intros V. unfold pathId. cbn [URLParam_id]. rewrite E.
    apply TrimSpace_hex. exact V. }
  split; [|split; [|split; [|]]].
  - unfold deleteTodo. cbn [URLParam_id Decode]. rewrite E. reflexivity.
  - unfold updateTodo. cbn [URLParam_id Decode]. rewrite E. reflexivity.
  - intros V. split; [exact (P V)|]. rewrite (P V). exact V.
  - intros oid O. destruct (ObjectIdHex_valid _ _ O) as [V _].
    pose proof (P V) as Pi.
    assert (bson.ObjectIdHex (pathId (mkRequest (lead ++ id ++ trail) dec))
            = Some oid) as O' by (rewrite Pi; exact O).
    assert (bson.IsObjectIdHex (pathId (mkRequest (lead ++ id ++ trail) dec))
            = true) as V' by (rewrite Pi; exact V).
    split; [|split; [|split]].
    + rewrite (deleteTodo_valid e _ s w oid O'), Pi. reflexivity.
    + intros err ->. apply updateTodo_undecodable; [exact V'|reflexivity].
    + intros t -> T. apply (updateTodo_untitled e _ s w t V' eq_refl T).
    + intros t -> T. apply (updateTodo_valid e _ s w t oid O' eq_refl T).
Qed.

Lemma C9_witness :
  deleteTodo ex_env
    (mkRequest (str " " ++ bson.Hex ex_oid ++ str " ") (inr ex_edit))
    ex_stored [] =
    Done [mkResponse StatusOK
            (M [ ("message"%string, JString (str "Todo deleted succesfully!"))
               ; ("todo_id"%string, JString (bson.Hex ex_oid)) ])]
         (with_todos ex_stored []) /\
  updateTodo ex_env
    (mkRequest (str " " ++ bson.Hex ex_oid ++ str " ") (inr ex_edit))
    ex_stored [] =
    Done [] (with_todos ex_stored
               [(("_id"%string, bson.VObjectId ex_oid) :: updateDoc ex_edit)]).
Proof.
  destruct (C9_path_id_trimmed (str " ") (str " ") (bson.Hex ex_oid)
              (inr ex_edit) ex_env ex_stored [] eq_refl eq_refl)
    as (_ & _ & _ & K).
  destruct (K ex_oid ltac:(vm_compute; reflexivity)) as (Kd & _ & _ & Ku).
  split.
  - rewrite Kd. vm_compute. reflexivity.
  - rewrite (Ku ex_edit eq_refl ltac:(discriminate)). vm_compute. reflexivity.
Defined.
(** ** What a request does to the collection *)

Lemma answers_status w resp st :
  answers w (w ++ [resp]) st -> status resp = st.
Proof.
  intros (resp' & E & S). apply app_inv_head in E. congruence.
Qed.

Lemma unchanged_answer r s w resp s' op :
  todos s' = todos s ->
  (op = DeleteTodo -> status resp <> StatusOK) ->
  change r s w (Done (w ++ [resp]) s') op.
Proof.
  intros E N. apply chg_none.
  - exact E.
  - intros _ s'' X. injection X as X _. elim (app_one_neq _ _ X).
  - intros O w' s'' X A. injection X as <- _.
    apply answers_status in A. elim (N O A).
Qed.

Lemma unchanged_panic r s w s' op :
  todos s' = todos s -> change r s w (Panic s') op.
Proof.
  intros E. apply chg_none; [exact E| |]; intros; discriminate.
Qed.

Lemma handler_change op e r s w :
  change r s w (todoHandlers op e r s w) op.
Proof.
  destruct op; cbn [todoHandlers].
  - unfold fetchTodos, rnd.JSON.
    destruct (mgo.All (link e) (todos s)) as [[err|found]|].
    + apply unchanged_answer; [reflexivity|discriminate].
    + apply unchanged_answer; [reflexivity|discriminate].
    + apply unchanged_panic. reflexivity.
  - destruct (Decode r) as [err|t] eqn:D.
    { rewrite (createTodo_undecodable e r s w err D).
      apply unchanged_answer; [reflexivity|discriminate]. }
    destruct (Wire.Title t) eqn:T.
    { rewrite (createTodo_untitled e r s w t D T).
      apply unchanged_answer; [reflexivity|discriminate]. }
    rewrite (createTodo_panics e r s w t D) by (rewrite T; discriminate).
    apply unchanged_panic. reflexivity.
  - destruct (bson.IsObjectIdHex (pathId r)) eqn:Vd.
    2:{ rewrite (updateTodo_invalid e r s w Vd).
        apply unchanged_answer; [reflexivity|discriminate]. }
    destruct (IsObjectIdHex_decodes _ Vd) as [oid O].
    destruct (Decode r) as [err|t] eqn:D.
    { rewrite (updateTodo_undecodable e r s w err Vd D).
      apply unchanged_answer; [reflexivity|discriminate]. }
    destruct (Wire.Title t) eqn:T.
    { rewrite (updateTodo_untitled e r s w t Vd D T).
      apply unchanged_answer; [reflexivity|discriminate]. }
    assert (Wire.Title t <> []) as Tn by (rewrite T; discriminate).
    rewrite (updateTodo_valid e r s w t oid O D Tn).
    unfold mgo.Update. destruct (link e).
    { apply unchanged_answer; [reflexivity|discriminate]. }
    destruct (mgo.updateFirst _ _ _) as [c|] eqn:U.
    + apply (chg_update r s w _ oid t (with_todos s c) O D Tn eq_refl U).
    + apply unchanged_answer; [reflexivity|discriminate].
  - destruct (bson.IsObjectIdHex (pathId r)) eqn:Vd.
    2:{ rewrite (deleteTodo_invalid e r s w Vd).
        apply unchanged_answer; [reflexivity|intros _; discriminate]. }
    destruct (IsObjectIdHex_decodes _ Vd) as [oid O].
    rewrite (deleteTodo_valid e r s w oid O).
    unfold mgo.RemoveId. destruct (link e).
    { apply unchanged_answer; [reflexivity|intros _; discriminate]. }
    destruct (mgo.removeFirst _ _) as [c|] eqn:U.
    + eapply (chg_remove r s w _ oid _ (with_todos s c) O eq_refl); [|exact U].
      eexists. split; reflexivity.
    + apply unchanged_answer; [reflexivity|intros _; discriminate].
Qed.

Lemma removeFirst_sub sel c c' :
  mgo.removeFirst sel c = Some c' -> forall d, In d c' -> In d c.
Proof.
  revert c'. induction c as [|d0 c IH]; intros c' R;
    cbn [mgo.removeFirst] in R; [discriminate|].
  destruct (mgo.matches sel d0).
  - inversion R; subst. intros; right; assumption.
  - destruct (mgo.removeFirst sel c) as [rest|]; [|discriminate].
    inversion R; subst. intros d [<-|I]; [left; reflexivity|right; eauto].
Qed.

(** The handlers keep the ids of the collection unique. *)
Lemma handlers_keep_unique_ids op e r s w :
  unique_ids (todos s) ->
  unique_ids (todos (leaves (todoHandlers op e r s w))).
Proof.
  intros U. pose proof (handler_change op e r s w) as C.
  remember (todoHandlers op e r s w) as o eqn:Ho. clear Ho.
  destruct C as [op0 E _ _|oid t s' _ _ _ -> E|oid w' s' _ -> _ E];
    cbn [leaves] in *.
  - rewrite E. exact U.
  - unfold unique_ids.
    rewrite (updateFirst_ids (mgo.byId oid) (updateDoc t) _ _ eq_refl E).
    exact U.
  - apply (removeFirst_unique _ _ _ U E).
Qed.

(** An id no record has stays so. *)
Lemma step_absent oid op e r s w :
  absent oid (todos s) ->
  absent oid (todos (leaves (todoHandlers op e r s w))).
Proof.
  intros A. pose proof (handler_change op e r s w) as C.
  remember (todoHandlers op e r s w) as o eqn:Ho. clear Ho.
  destruct C as [op0 E _ _|oid' t s' _ _ _ -> E|oid' w' s' _ -> _ E];
    cbn [leaves] in *.
  - rewrite E. exact A.
  - apply (absent_ids oid (todos s)); [|exact A].
    apply (updateFirst_ids (mgo.byId oid') (updateDoc t) _ _ eq_refl E).
  - intros d I. apply A. apply (removeFirst_sub _ _ _ E). exact I.
Qed.

Lemma later_absent oid s s' :
  later s s' -> absent oid (todos s) -> absent oid (todos s').
Proof.
  induction 1 as [s|s op e r w s2 _ IH]; intros A; [exact A|].
  apply IH. apply step_absent. exact A.
Qed.

(** What a list request gives: the 102 of a failed round trip, the 200 of
    an empty collection, or the panic of the first document unmarshalled;
    no response of it shows a record. *)
Lemma fetchTodos_cases e r s w :
  fetchTodos e r s w = Panic s \/
  exists resp,
    fetchTodos e r s w = Done (w ++ [resp]) s /\
    forall t, ~ listed resp t.
Proof.
  destruct (link e) as [err|] eqn:Lk.
  - right. rewrite (fetchTodos_failed e r s w err Lk).
    eexists. split; [reflexivity|]. intros t (l & I & _). cbn in I.
    destruct I as [I|[I|[]]]; discriminate I.
  - destruct (todos s) as [|d c] eqn:C.
    + right. rewrite (fetchTodos_empty e r s w Lk C).
      eexists. split; [reflexivity|]. intros t (l & I & Il). cbn in I.
      destruct I as [I|[]]. injection I as <-. destruct Il.
    + left. apply fetchTodos_panics; [exact Lk|]. rewrite C. discriminate.
Qed.

(** C7: when the collection has its ids unique and holds a record under the
    id of the request, and the round trip goes through, [deleteTodo]
    answers 200 with its message and the id echoed and takes the record
    out.  In every state reached afterwards, by any requests, no document
    has that id, and a list request either panics, writing no response, or
    writes responses none of which shows a record with that id. *)
Theorem C7_delete_then_list e r s w oid :
  unique_ids (todos s) ->
  bson.ObjectIdHex (pathId r) = Some oid ->
  stored oid (todos s) ->
  link e = None ->
  exists s',
    deleteTodo e r s w =
      Done (w ++ [mkResponse StatusOK
                    (M [ ("message"%string, JString (str "Todo deleted succesfully!"))
                       ; ("todo_id"%string, JString (pathId r)) ])]) s' /\
    forall s'', later s' s'' ->
      absent oid (todos s'') /\
      forall e' r' w',
        fetchTodos e' r' s'' w' = Panic s'' \/
        exists rs,
          fetchTodos e' r' s'' w' = Done (w' ++ rs) s'' /\
          forall resp t, In resp rs -> listed resp t ->
                         Wire.ID t <> bson.Hex oid.
Proof.
  intros U H S Lk. rewrite (deleteTodo_valid e r s w oid H).
  unfold mgo.RemoveId. rewrite Lk.
  destruct (removeFirst_stored oid _ S) as [c R]. rewrite R.
  eexists. split; [reflexivity|].
  intros s'' Lt.
  destruct (removeFirst_unique oid _ _ U R) as (A & _ & _).
  split; [apply (later_absent oid _ _ Lt); exact A|].
  intros e' r' w'.
  destruct (fetchTodos_cases e' r' s'' w') as [P|(resp & F & N)];
    [left; exact P|right].
  exists [resp]. split; [exact F|].
  intros resp' t [<-|[]] L. elim (N t L).
Qed.

Lemma C7_witness :
  exists s',
    deleteTodo ex_env ex_delete ex_stored [] =
      Done ([] ++ [mkResponse StatusOK
                    (M [ ("message"%string, JString (str "Todo deleted succesfully!"))
                       ; ("todo_id"%string, JString (pathId ex_delete)) ])]) s' /\
    forall s'', later s' s'' ->
      absent ex_oid (todos s'') /\
      forall e' r' w',
        fetchTodos e' r' s'' w' = Panic s'' \/
        exists rs,
          fetchTodos e' r' s'' w' = Done (w' ++ rs) s'' /\
          forall resp t, In resp rs -> listed resp t ->
                         Wire.ID t <> bson.Hex ex_oid.
Proof.
  apply (C7_delete_then_list ex_env ex_delete ex_stored [] ex_oid).
  - unfold unique_ids. cbn [map ex_stored todos].
    constructor; [intros []|constructor].
  - vm_compute; reflexivity.
  - eexists. split; [left; reflexivity|vm_compute; reflexivity].
  - reflexivity.
Defined.
(** ** Create *)

(** C8 (the code, where the claim fails): a create request whose body
    decodes with a non-empty title is not answered 201.  The handler draws
    the object id and panics inside [Insert], which cannot marshal a
    [todoModel] under the tag ["_id, omitempty"]; it writes no response,
    the collection is what it was, and a list request served next shows no
    record. *)
Theorem C8_create_panics e r s w t :
  Decode r = inr t -> Wire.Title t <> [] ->
  createTodo e r s w =
    Panic (with_counter s ((objectIdCounter s + 1) mod 2 ^ 32)) /\
  todos (leaves (createTodo e r s w)) = todos s /\
  forall e' r' w',
    fetchTodos e' r' (leaves (createTodo e r s w)) w' =
      Panic (leaves (createTodo e r s w)) \/
    exists resp,
      fetchTodos e' r' (leaves (createTodo e r s w)) w' =
        Done (w' ++ [resp]) (leaves (createTodo e r s w)) /\
      forall x, ~ listed resp x.
Proof.
  intros D T. rewrite (createTodo_panics e r s w t D T). cbn [leaves].
  split; [reflexivity|]. split; [reflexivity|].
  intros e' r' w'. apply fetchTodos_cases.
Qed.

Lemma C8_witness :
  createTodo ex_env ex_post ex_empty [] = Panic (with_counter ex_empty 1) /\
  fetchTodos ex_env ex_get (with_counter ex_empty 1) [] =
    Done [mkResponse StatusOK (M [("data"%string, JTodos [])])]
         (with_counter ex_empty 1).
Proof.
  split.
  - apply (proj1 (C8_create_panics ex_env ex_post ex_empty [] ex_todo
                    eq_refl ltac:(discriminate))).
  - reflexivity.
Defined.





(** ** The failure statuses *)

(** ** Deleting *)

Lemma removeFirst_splits oid c c' :
  mgo.removeFirst (mgo.byId oid) c = Some c' ->
  exists pre d post,
    c = pre ++ d :: post /\ absent oid pre /\
    bson.lookup "_id" d = Some (bson.VObjectId oid) /\
    c' = pre ++ post.
Proof.
  revert c'. induction c as [|d c IH]; intros c' R;
    cbn [mgo.removeFirst] in R; [discriminate|].
  destruct (mgo.matches (mgo.byId oid) d) eqn:Md.
  - apply matches_byId in Md. injection R as <-.
    exists [], d, c. repeat split; try assumption. intros ? [].
  - destruct (mgo.removeFirst (mgo.byId oid) c) as [rest|]; [|discriminate].
    injection R as <-.
    destruct (IH rest eq_refl) as (pre & d' & post & -> & A & L & ->).
    exists (d :: pre), d', post. repeat split; try assumption.
    apply absent_cons. split; [|exact A].
    intros E. apply matches_byId in E. congruence.
Qed.

Lemma removeFirst_at oid pre d post :
  absent oid pre -> bson.lookup "_id" d = Some (bson.VObjectId oid) ->
  mgo.removeFirst (mgo.byId oid) (pre ++ d :: post) = Some (pre ++ post).
Proof.
  intros A L. induction pre as [|d0 pre IH]; cbn [app mgo.removeFirst].
  - apply matches_byId in L. rewrite L. reflexivity.
  - apply absent_cons in A. destruct A as [A0 A].
    rewrite (matches_absent oid [d0] d0), (IH A); [reflexivity| |left; reflexivity].
    apply absent_cons. split; [exact A0|intros ? []].
Qed.

Lemma updateFirst_at oid u pre d post :
  absent oid pre -> bson.lookup "_id" d = Some (bson.VObjectId oid) ->
  mgo.updateFirst (mgo.byId oid) u (pre ++ d :: post) =
  Some (pre ++ (("_id"%string, bson.VObjectId oid) :: u) :: post).
Proof.
  intros A L. induction pre as [|d0 pre IH]; cbn [app mgo.updateFirst].
  - unfold mgo.replacement. rewrite L.
    apply matches_byId in L. rewrite L. reflexivity.
  - apply absent_cons in A. destruct A as [A0 A].
    rewrite (matches_absent oid [d0] d0), (IH A); [reflexivity| |left; reflexivity].
    apply absent_cons. split; [exact A0|intros ? []].
Qed.

(** A delete answered 200 takes out the first document whose [_id] is the
    id of the request, and leaves every other document where it was. *)
Theorem delete_removes_one e r s w resp s' :
  deleteTodo e r s w = Done (w ++ [resp]) s' ->
  status resp = StatusOK ->
  exists oid pre d post,
    bson.ObjectIdHex (pathId r) = Some oid /\
    todos s = pre ++ d :: post /\
    absent oid pre /\
    bson.lookup "_id" d = Some (bson.VObjectId oid) /\
    todos s' = pre ++ post.
Proof.
  intros H St.
  pose proof (handler_change DeleteTodo e r s w) as C.
  cbn [todoHandlers] in C. rewrite H in C.
  inversion C as [op E _ N| |oid w' s'' O X A R]; subst.
  - elim (N eq_refl _ _ eq_refl). eexists. split; [reflexivity|exact St].
  - injection X as <- <-.
    destruct (removeFirst_splits _ _ _ R) as (pre & d & post & E & Ab & L & E').
    exists oid, pre, d, post. repeat split; assumption.
Qed.

Lemma delete_removes_one_witness :
  exists oid pre d post,
    bson.ObjectIdHex (pathId ex_delete) = Some oid /\
    todos ex_stored = pre ++ d :: post /\
    absent oid pre /\
    bson.lookup "_id" d = Some (bson.VObjectId oid) /\
    @nil bson.Doc = pre ++ post.
Proof.
  apply (delete_removes_one ex_env ex_delete ex_stored []
           (mkResponse StatusOK
              (M [ ("message"%string, JString (str "Todo deleted succesfully!"))
                 ; ("todo_id"%string, JString (pathId ex_delete)) ]))
           (mkServer (Byte.x01, Byte.x02, Byte.x03) 4660 1 [])).
  - vm_compute; reflexivity.
  - reflexivity.
Defined.

(** A delete answered 200, sent a second time: on a collection with unique
    ids the record is gone, and the second delete is answered 102 and
    changes nothing. *)
Theorem delete_twice e r s w resp s1 e2 w2 :
  unique_ids (todos s) ->
  deleteTodo e r s w = Done (w ++ [resp]) s1 ->
  status resp = StatusOK ->
  deleteTodo e2 r s1 w2 =
    Done (w2 ++ [mkResponse StatusProcessing
                   (M [ ("message"%string, JString (str "Failed to delete todo!"))
                      ; ("todo_id"%string, JString (pathId r)) ])]) s1.
Proof.
  intros U H St.
  pose proof (handler_change DeleteTodo e r s w) as C.
  cbn [todoHandlers] in C. rewrite H in C.
  inversion C as [op E _ N| |oid w' s'' O X A R]; subst.
  - elim (N eq_refl _ _ eq_refl). eexists. split; [reflexivity|exact St].
  - injection X as <- <-.
    destruct (removeFirst_unique oid _ _ U R) as (Ab & _ & _).
    rewrite (deleteTodo_valid e2 r s1 w2 oid O).
    unfold mgo.RemoveId. rewrite (removeFirst_absent oid _ Ab).
    destruct (link e2); reflexivity.
Qed.

Lemma delete_twice_witness :
  deleteTodo ex_env ex_delete
    (mkServer (Byte.x01, Byte.x02, Byte.x03) 4660 1 []) [] =
    Done ([] ++ [mkResponse StatusProcessing
                   (M [ ("message"%string, JString (str "Failed to delete todo!"))
                      ; ("todo_id"%string, JString (pathId ex_delete)) ])])
         (mkServer (Byte.x01, Byte.x02, Byte.x03) 4660 1 []).
Proof.
  apply (delete_twice ex_env ex_delete ex_stored []
           (mkResponse StatusOK
              (M [ ("message"%string, JString (str "Todo deleted succesfully!"))
                 ; ("todo_id"%string, JString (pathId ex_delete)) ]))
           (mkServer (Byte.x01, Byte.x02, Byte.x03) 4660 1 []) ex_env []).
  - unfold unique_ids. cbn [map ex_stored todos].
    constructor; [intros []|constructor].
  - vm_compute; reflexivity.
  - reflexivity.
Defined.

(** ** Path ids and object ids *)

Lemma nibbles_checked : nibbles_check = true.
Proof. vm_compute; reflexivity. Qed.

Lemma encode_nibbles x y :
  In x nibbles -> In y nibbles ->
  hex.encodeByte (byte_of_Z (Z.lor (Z.shiftl x 4) y)) = [digit x; digit y].
Proof.
  intros Ix Iy. pose proof nibbles_checked as H. unfold nibbles_check in H.
  rewrite forallb_forall in H. specialize (H x Ix).
  rewrite forallb_forall in H. specialize (H y Iy).
  destruct (hex.encodeByte _) as [|a [|b [|? ?]]]; try discriminate.
  apply andb_true_iff in H. destruct H as [Ha Hb].
  apply Z.eqb_eq in Ha, Hb. congruence.
Qed.

Lemma fromHexChar_digit c x :
  hex.fromHexChar c = Some x -> In x nibbles /\ digit x = toLowerHex c.
Proof.
  unfold hex.fromHexChar. intros H.
  destruct ((48 <=? c) && (c <=? 57)) eqn:A;
    [|destruct ((97 <=? c) && (c <=? 102)) eqn:B;
      [|destruct ((65 <=? c) && (c <=? 70)) eqn:C; [|discriminate]]];
    injection H as <-;
    match goal with
    | E : (_ && _) = true |- _ =>
        apply andb_true_iff in E; destruct E as [E1 E2];
        apply Z.leb_le in E1; apply Z.leb_le in E2
    end.
  - assert (c = 48 \/ c = 49 \/ c = 50 \/ c = 51 \/ c = 52 \/ c = 53 \/
            c = 54 \/ c = 55 \/ c = 56 \/ c = 57) as K by lia.
    repeat (destruct K as [->|K]; [split; [cbn; tauto|reflexivity]|]).
    subst c. split; [cbn; tauto|reflexivity].
  - assert (c = 97 \/ c = 98 \/ c = 99 \/ c = 100 \/ c = 101 \/ c = 102)
      as K by lia.
    repeat (destruct K as [->|K]; [split; [cbn; tauto|reflexivity]|]).
    subst c. split; [cbn; tauto|reflexivity].
  - assert (c = 65 \/ c = 66 \/ c = 67 \/ c = 68 \/ c = 69 \/ c = 70)
      as K by lia.
    repeat (destruct K as [->|K]; [split; [cbn; tauto|reflexivity]|]).
    subst c. split; [cbn; tauto|reflexivity].
Qed.

Lemma Encode_Decode (d : list byte) :
  forall s, hex.DecodeString s = Some d ->
            hex.EncodeToString d = map toLowerHex s.
Proof.
  induction d as [|x d IH]; intros [|a [|b rest]] H;
    cbn [hex.DecodeString] in H; try discriminate; try reflexivity.
  - destruct (hex.fromHexChar a), (hex.fromHexChar b),
      (hex.DecodeString rest); discriminate.
  - destruct (hex.fromHexChar a) as [xa|] eqn:Fa; try discriminate.
    destruct (hex.fromHexChar b) as [xb|] eqn:Fb; try discriminate.
    destruct (hex.DecodeString rest) as [bs|] eqn:R; try discriminate.
    assert (x = byte_of_Z (Z.lor (Z.shiftl xa 4) xb) /\ d = bs) as [-> ->]
      by (split; congruence).
    destruct (fromHexChar_digit _ _ Fa) as [Ia Da].
    destruct (fromHexChar_digit _ _ Fb) as [Ib Db].
    unfold hex.EncodeToString in *. cbn [flat_map map].
    rewrite (encode_nibbles _ _ Ia Ib), (IH rest R), Da, Db. reflexivity.
Qed.

(** The hexadecimal form of an object id and its reading are inverse: a
    12-byte id written by [Hex] is read back by [ObjectIdHex] as itself,
    and a string [ObjectIdHex] reads is, put in lower case, what [Hex]
    writes for the id read. *)
Theorem ObjectId_hex_round_trip :
  (forall oid, List.length oid = 12%nat ->
               bson.ObjectIdHex (bson.Hex oid) = Some oid) /\
  (forall s oid, bson.ObjectIdHex s = Some oid ->
                 bson.Hex oid = map toLowerHex s).
Proof.
  split; [exact ObjectIdHex_Hex|].
  intros s oid H. unfold bson.ObjectIdHex in H.
  destruct (hex.DecodeString s) as [d|] eqn:D; try discriminate.
  destruct (Nat.eqb (List.length d) 12); try discriminate.
  injection H as <-. apply Encode_Decode. exact D.
Qed.

Lemma ObjectId_hex_round_trip_witness :
  bson.ObjectIdHex (bson.Hex ex_oid) = Some ex_oid /\
  bson.Hex ex_oid = map toLowerHex (str "6553F1000102031234000001").
Proof.
  split.
  - apply (proj1 ObjectId_hex_round_trip ex_oid). reflexivity.
  - apply (proj2 ObjectId_hex_round_trip (str "6553F1000102031234000001")).
    vm_compute; reflexivity.
Defined.

Lemma Decode_total n :
  forall s, List.length s = (2 * n)%nat ->
            Forall (fun c => isHexDigit c = true) s ->
            exists d, hex.DecodeString s = Some d.
Proof.
  induction n as [|n IH]; intros [|a [|b rest]] L F; cbn in L;
    try discriminate; try lia.
  - exists []. reflexivity.
  - inversion F as [|? ? Fa F']; subst. inversion F' as [|? ? Fb F'']; subst.
    destruct (IH rest ltac:(lia) F'') as [d D].
    unfold isHexDigit in Fa, Fb. cbn [hex.DecodeString].
    destruct (hex.fromHexChar a); try discriminate.
    destruct (hex.fromHexChar b); try discriminate.
    rewrite D. eauto.
Qed.

Lemma isHexDigit_hexadecimal (c : rune) : isHexDigit c = isHexadecimal c.
Proof.
  unfold isHexDigit, isHexadecimal, hex.fromHexChar.
  destruct ((48 <=? c) && (c <=? 57)); [reflexivity|].
  destruct ((97 <=? c) && (c <=? 102)); [reflexivity|].
  destruct ((65 <=? c) && (c <=? 70)); reflexivity.
Qed.

(** The validation of a path id: [IsObjectIdHex] accepts exactly the
    strings of 24 characters each of which is one of 0-9, a-f, A-F. *)
Theorem IsObjectIdHex_iff (s : gostring) :
  bson.IsObjectIdHex s = true <->
  List.length s = 24%nat /\ Forall (fun c => isHexadecimal c = true) s.
Proof.
  assert (Forall (fun c => isHexDigit c = true) s <->
          Forall (fun c => isHexadecimal c = true) s) as Q.
  { split; apply Forall_impl; intros c; rewrite isHexDigit_hexadecimal; auto. }
  rewrite <- Q. unfold bson.IsObjectIdHex. split.
  - intros H. destruct (Nat.eqb (List.length s) 24) eqn:L; try discriminate.
    apply Nat.eqb_eq in L. split; [exact L|].
    destruct (hex.DecodeString s) as [d|] eqn:D; try discriminate.
    apply (Decode_digits s d D).
  - intros [L F]. rewrite L. cbn [Nat.eqb negb].
    destruct (Decode_total 12 s L F) as [d ->]. reflexivity.
Qed.

Lemma fromHexChar_upper c :
  hex.fromHexChar (toUpperHex c) = hex.fromHexChar c.
Proof.
  unfold toUpperHex.
  destruct ((97 <=? c) && (c <=? 102)) eqn:B; [|reflexivity].
  unfold hex.fromHexChar. rewrite B.
  apply andb_true_iff in B. destruct B as [B1 B2].
  apply Z.leb_le in B1, B2.
  replace ((48 <=? c - 32) && (c - 32 <=? 57)) with false
    by (symmetry; apply andb_false_iff; right; apply Z.leb_gt; lia).
  replace ((97 <=? c - 32) && (c - 32 <=? 102)) with false
    by (symmetry; apply andb_false_iff; left; apply Z.leb_gt; lia).
  replace ((65 <=? c - 32) && (c - 32 <=? 70)) with true
    by (symmetry; apply andb_true_iff; split; apply Z.leb_le; lia).
  replace ((48 <=? c) && (c <=? 57)) with false
    by (symmetry; apply andb_false_iff; right; apply Z.leb_gt; lia).
  f_equal. lia.
Qed.

Lemma Decode_upper (s : gostring) :
  hex.DecodeString (map toUpperHex s) = hex.DecodeString s.
Proof.
  assert (forall n s, (List.length s <= n)%nat ->
             hex.DecodeString (map toUpperHex s) = hex.DecodeString s) as G.
  { induction n as [|n IH]; intros [|a [|b rest]] L; cbn in L;
      try reflexivity; try lia.
    cbn [map hex.DecodeString]. rewrite !fromHexChar_upper.
    rewrite (IH rest) by lia. reflexivity. }
  apply (G (List.length s)). apply le_n.
Qed.

(** Path ids are read without regard to case: the id with its letters in
    upper case passes the validation as the lower-case one does, names the
    same object id, and gives the same update; a delete differs at most by
    the id echoed in its response. *)
Theorem path_id_case_insensitive id dec e s w :
  bson.IsObjectIdHex id = true ->
  bson.IsObjectIdHex (map toUpperHex id) = true /\
  bson.ObjectIdHex (pathId (mkRequest (map toUpperHex id) dec)) =
    bson.ObjectIdHex (pathId (mkRequest id dec)) /\
  updateTodo e (mkRequest (map toUpperHex id) dec) s w =
    updateTodo e (mkRequest id dec) s w /\
  (forall w1 s1 w2 s2,
     deleteTodo e (mkRequest (map toUpperHex id) dec) s w = Done w1 s1 ->
     deleteTodo e (mkRequest id dec) s w = Done w2 s2 ->
     s1 = s2 /\ map status w1 = map status w2).
Proof.
  intros V.
  assert (bson.IsObjectIdHex (map toUpperHex id) = true) as VU.
  { unfold bson.IsObjectIdHex in *. rewrite length_map, Decode_upper. exact V. }
  assert (bson.ObjectIdHex (map toUpperHex id) = bson.ObjectIdHex id) as OU.
  { unfold bson.ObjectIdHex. rewrite Decode_upper. reflexivity. }
  split; [exact VU|].
  unfold updateTodo, deleteTodo, pathId. cbn [URLParam_id Decode].
  rewrite (TrimSpace_hex _ V), (TrimSpace_hex _ VU), OU, V, VU.
  cbn [negb]. split; [reflexivity|]. split; [reflexivity|].
  intros w1 s1 w2 s2 H1 H2.
  destruct (bson.ObjectIdHex id) as [oid|]; [|discriminate].
  destruct (mgo.RemoveId _ _ _);
    injection H1 as <- <-; injection H2 as <- <-;
    (split; [reflexivity|]); unfold rnd.JSON; rewrite !map_app; reflexivity.
Qed.

Lemma path_id_case_insensitive_witness :
  bson.IsObjectIdHex (map toUpperHex (bson.Hex ex_oid)) = true /\
  bson.ObjectIdHex
    (pathId (mkRequest (map toUpperHex (bson.Hex ex_oid)) (inr ex_edit))) =
    bson.ObjectIdHex (pathId (mkRequest (bson.Hex ex_oid) (inr ex_edit))).
Proof.
  destruct (path_id_case_insensitive (bson.Hex ex_oid) (inr ex_edit)
              ex_env ex_stored [] eq_refl) as (A & B & _).
  split; [exact A|exact B].
Defined.

(** ** Trimming the path id *)

Lemma TrimLeft_head f s c rest :
  strings.TrimLeftFunc f s = c :: rest -> f c = false.
Proof.
  induction s as [|a s IH]; cbn [strings.TrimLeftFunc]; [discriminate|].
  destruct (f a) eqn:Fa; [exact IH|]. intros E. injection E as <- _. exact Fa.
Qed.

Lemma TrimRight_cons f c y :
  f c = false ->
  strings.TrimRightFunc f (c :: y) = c :: strings.TrimRightFunc f y.
Proof.
  intros Fc. unfold strings.TrimRightFunc. cbn [rev].
  destruct (strings.TrimLeftFunc f (rev y)) as [|a z] eqn:E.
  - apply TrimLeft_nil in E. rewrite TrimLeft_app_l by exact E.
    cbn [strings.TrimLeftFunc]. rewrite Fc. reflexivity.
  - rewrite TrimLeft_app_r by (rewrite E; discriminate).
    rewrite E, rev_app_distr. reflexivity.
Qed.

(** The id the handlers validate starts and ends with a character that is
    not white space (or is empty), and trimming it again changes nothing. *)
Theorem TrimSpace_trimmed (s : gostring) :
  (forall c rest, strings.TrimSpace s = c :: rest ->
                  unicode.IsSpace c = false) /\
  (forall c front, strings.TrimSpace s = front ++ [c] ->
                   unicode.IsSpace c = false) /\
  strings.TrimSpace (strings.TrimSpace s) = strings.TrimSpace s.
Proof.
  assert (forall c front, strings.TrimSpace s = front ++ [c] ->
                          unicode.IsSpace c = false) as Last.
  { unfold strings.TrimSpace, strings.TrimRightFunc. intros c front E.
    apply (f_equal (@rev rune)) in E.
    rewrite rev_involutive, rev_app_distr in E. cbn [rev app] in E.
    apply (TrimLeft_head _ _ _ _ E). }
  assert (forall c rest, strings.TrimSpace s = c :: rest ->
                         unicode.IsSpace c = false) as First.
  { unfold strings.TrimSpace. intros c rest E.
    destruct (strings.TrimLeftFunc unicode.IsSpace s) as [|a y] eqn:L.
    - discriminate E.
    - pose proof (TrimLeft_head _ _ _ _ L) as Fa.
      rewrite (TrimRight_cons _ a y Fa) in E. injection E as <- _. exact Fa. }
  split; [exact First|]. split; [exact Last|].
  destruct (strings.TrimSpace s) as [|c rest] eqn:E; [reflexivity|].
  unfold strings.TrimSpace at 1. cbn [strings.TrimLeftFunc].
  rewrite (First c rest eq_refl).
  unfold strings.TrimRightFunc.
  destruct (rev (c :: rest)) as [|z zs] eqn:Rv.
  - apply (f_equal (@rev rune)) in Rv. rewrite rev_involutive in Rv.
    discriminate Rv.
  - cbn [strings.TrimLeftFunc].
    assert (c :: rest = rev zs ++ [z]) as Sp.
    { rewrite <- (rev_involutive (c :: rest)), Rv. reflexivity. }
    rewrite (Last z (rev zs) Sp). rewrite <- Rv. apply rev_involutive.
Qed.


(** ** Outcomes *)



(** A request answered 400 leaves the whole server state as it was: the
    collection, and the object id counter too. *)
Theorem bad_request_keeps_state op e r s w resp s' :
  todoHandlers op e r s w = Done (w ++ [resp]) s' ->
  status resp = StatusBadRequest ->
  s' = s.
Proof.
  intros H St. destruct op; cbn [todoHandlers] in H.
  - unfold fetchTodos, rnd.JSON in H.
    destruct (mgo.All _ _) as [[err|found]|]; try discriminate H;
      injection H as H <-; apply app_inv_head in H; injection H as <-;
      discriminate St.
  - destruct (Decode r) as [err|t] eqn:D.
    { rewrite (createTodo_undecodable e r s w err D) in H.
      injection H as H <-. reflexivity. }
    destruct (Wire.Title t) eqn:T.
    { rewrite (createTodo_untitled e r s w t D T) in H.
      injection H as H <-. reflexivity. }
    rewrite (createTodo_panics e r s w t D) in H by (rewrite T; discriminate).
    discriminate H.
  - destruct (bson.IsObjectIdHex (pathId r)) eqn:Vd.
    2:{ rewrite (updateTodo_invalid e r s w Vd) in H.
        injection H as H <-. reflexivity. }
    destruct (IsObjectIdHex_decodes _ Vd) as [oid O].
    destruct (Decode r) as [err|t] eqn:D.
    { rewrite (updateTodo_undecodable e r s w err Vd D) in H.
      injection H as H <-. reflexivity. }
    destruct (Wire.Title t) eqn:T.
    { rewrite (updateTodo_untitled e r s w t Vd D T) in H.
      injection H as H <-. reflexivity. }
    rewrite (updateTodo_valid e r s w t oid O D) in H by (rewrite T; discriminate).
    destruct (mgo.Update _ _ _ _); injection H as H E.
    + symmetry. exact E.
    + symmetry in H. elim (app_one_neq _ _ H).
  - destruct (bson.IsObjectIdHex (pathId r)) eqn:Vd.
    2:{ rewrite (deleteTodo_invalid e r s w Vd) in H.
        injection H as H <-. reflexivity. }
    destruct (IsObjectIdHex_decodes _ Vd) as [oid O].
    rewrite (deleteTodo_valid e r s w oid O) in H.
    destruct (mgo.RemoveId _ _ _); injection H as H E.
    + symmetry. exact E.
    + apply app_inv_head in H. injection H as <-. discriminate St.
Qed.

Lemma bad_request_keeps_state_witness :
  todoHandlers PostTodo ex_env (mkRequest [] (inr (Wire.mk [] [] true 0)))
    ex_stored [] =
    Done ([] ++ [mkResponse StatusBadRequest
                   (M [("message"%string, JString (str "Todo had no title!"))])])
         ex_stored /\
  ex_stored = ex_stored.
Proof.
  split; [reflexivity|].
  apply (bad_request_keeps_state PostTodo ex_env
           (mkRequest [] (inr (Wire.mk [] [] true 0))) ex_stored []
           (mkResponse StatusBadRequest
              (M [("message"%string, JString (str "Todo had no title!"))]))
           ex_stored).
  - reflexivity.
  - reflexivity.
Defined.

(** What a list request gives: the 102 carrying the driver's error when
    the round trip fails, the 200 with an empty list when the collection is
    empty, and a panic, with no response, when the collection holds a
    document. *)
Theorem fetchTodos_outcomes e r s w :
  (forall err, link e = Some err ->
     fetchTodos e r s w =
       Done (w ++ [mkResponse StatusProcessing
                     (M [ ("message"%string, JString (str "Failed to fetch the Todos."))
                        ; ("error"%string, JError err) ])]) s) /\
  (link e = None -> todos s = [] ->
     fetchTodos e r s w =
       Done (w ++ [mkResponse StatusOK (M [("data"%string, JTodos [])])]) s) /\
  (link e = None -> todos s <> [] -> fetchTodos e r s w = Panic s).
Proof.
  split; [|split].
  - intros err. apply fetchTodos_failed.
  - apply fetchTodos_empty.
  - apply fetchTodos_panics.
Qed.

Lemma fetchTodos_outcomes_witness :
  fetchTodos ex_env ex_get ex_empty [] =
    Done ([] ++ [mkResponse StatusOK (M [("data"%string, JTodos [])])]) ex_empty /\
  fetchTodos ex_env ex_get ex_stored [] = Panic ex_stored.
Proof.
  split.
  - apply (proj1 (proj2 (fetchTodos_outcomes ex_env ex_get ex_empty [])));
      reflexivity.
  - apply (proj2 (proj2 (fetchTodos_outcomes ex_env ex_get ex_stored [])));
      [reflexivity|discriminate].
Defined.

(** ** The statuses of the answers *)



(** ** Updating *)

Lemma updateTodo_replaces_record_witness :
  exists pre d d' post,
    todos ex_stored = pre ++ d :: post /\ absent ex_oid pre /\
    bson.lookup "_id" d = Some (bson.VObjectId ex_oid) /\
    todos (with_todos ex_stored
             [(("_id"%string, bson.VObjectId ex_oid) :: updateDoc ex_edit)]) =
      pre ++ d' :: post /\
    bson.lookup "_id" d' = Some (bson.VObjectId ex_oid) /\
    bson.lookup "title" d' = Some (bson.VString (Wire.Title ex_edit)) /\
    bson.lookup "completed" d' = Some (bson.VBool (Wire.Completed ex_edit)) /\
    forall k, k <> "_id"%string -> k <> "title"%string ->
              k <> "completed"%string -> bson.lookup k d' = None.
Proof.
  apply (updateTodo_replaces_record ex_env ex_put ex_stored [] ex_edit ex_oid).
  - vm_compute; reflexivity.
  - reflexivity.
  - discriminate.
  - vm_compute; reflexivity.
Defined.

Lemma same_fields_all (c : mgo.Collection) : Forall2 same_fields c c.
Proof. induction c; constructor; [intros k; reflexivity|assumption]. Qed.

(** A successful update sent a second time succeeds again, writes nothing
    and leaves, document by document, the same elements under the same
    keys as the first one left. *)
Theorem update_twice e r s w s1 e2 w2 :
  updateTodo e r s w = Done w s1 ->
  link e2 = None ->
  exists s2,
    updateTodo e2 r s1 w2 = Done w2 s2 /\
    Forall2 same_fields (todos s2) (todos s1).
Proof.
  intros H Lk.
  pose proof (handler_change PutTodo e r s w) as C.
  cbn [todoHandlers] in C. rewrite H in C.
  inversion C as [op E N _|oid t s' O D T X U|]; subst.
  - elim (N eq_refl s1 eq_refl).
  - injection X as <-.
    destruct (updateFirst_replaces _ _ _ _ U) as (pre & d & post & _ & A & _ & E).
    rewrite (updateTodo_valid e2 r s1 w2 t oid O D T).
    unfold mgo.Update. rewrite Lk, E.
    match goal with
    | |- context [mgo.updateFirst ?a ?b ?c] =>
        replace (mgo.updateFirst a b c) with (Some c)
          by (symmetry;
              exact (updateFirst_at oid (updateDoc t) pre
                       (("_id"%string, bson.VObjectId oid) :: updateDoc t)
                       post A eq_refl))
    end.
    eexists. split; [reflexivity|]. apply same_fields_all.
Qed.

Lemma update_twice_witness :
  exists s2,
    updateTodo ex_env ex_put
      (with_todos ex_stored
         [(("_id"%string, bson.VObjectId ex_oid) :: updateDoc ex_edit)]) [] =
      Done [] s2 /\
    Forall2 same_fields (todos s2)
      (todos (with_todos ex_stored
                [(("_id"%string, bson.VObjectId ex_oid) :: updateDoc ex_edit)])).
Proof.
  apply (update_twice ex_env ex_put ex_stored []
           (with_todos ex_stored
              [(("_id"%string, bson.VObjectId ex_oid) :: updateDoc ex_edit)])
           ex_env []).
  - vm_compute; reflexivity.
  - reflexivity.
Defined.

(** ** The flags of a struct tag *)

Lemma Split_plain (s : string) : noComma s = true -> Split "," s = [s].
Proof.
  induction s as [|c s IH]; cbn [noComma Split]; [reflexivity|].
  intros H. apply andb_true_iff in H. destruct H as [Hc Hs].
  apply negb_true_iff in Hc. rewrite Hc, (IH Hs). reflexivity.
Qed.

Lemma Split_key (key rest : string) :
  noComma key = true ->
  Split "," (key ++ String "," rest) = key :: Split "," rest.
Proof.
  induction key as [|c key IH]; cbn [noComma Split String.append].
  - intros _. reflexivity.
  - intros H. apply andb_true_iff in H. destruct H as [Hc Hs].
    apply negb_true_iff in Hc. rewrite Hc, (IH Hs). reflexivity.
Qed.

(** The flags of a bson tag are read as they stand: after a key without
    comma, [",omitempty"] sets the flag, and [", omitempty"], with a space
    after the comma, is the panic on an unsupported flag.  The [_id] tag of
    [todoModel] is of the second form. *)
Theorem tag_flag_spacing (key : string) :
  noComma key = true ->
  parseTag (key ++ ",omitempty") = Some (mkFieldInfo key true false false) /\
  parseTag (key ++ ", omitempty") = None /\
  tagID todoModel_tags = ("_id" ++ ", omitempty")%string.
Proof.
  intros N. unfold parseTag. split; [|split].
  - change (key ++ ",omitempty")%string
      with (key ++ String "," "omitempty")%string.
    rewrite (Split_key key "omitempty" N). reflexivity.
  - change (key ++ ", omitempty")%string
      with (key ++ String "," " omitempty")%string.
    rewrite (Split_key key " omitempty" N). reflexivity.
  - reflexivity.
Qed.

Lemma tag_flag_spacing_witness :
  parseTag "_id,omitempty" = Some (mkFieldInfo "_id" true false false) /\
  parseTag "_id, omitempty" = None.
Proof.
  destruct (tag_flag_spacing "_id" eq_refl) as (A & B & _).
  split; [exact A|exact B].
Defined.

(** ** Drawing object ids *)

Lemma byte_of_Z_mod (x : Z) :
  Z.of_N (Byte.to_N (byte_of_Z x)) = x mod 256.
Proof.
  unfold byte_of_Z.
  pose proof (Z.mod_pos_bound x 256 ltac:(lia)) as B.
  pose proof (Byte.to_of_N_option_map (Z.to_N (x mod 256))) as H.
  replace (N.leb (Z.to_N (x mod 256)) 255) with true in H
    by (symmetry; apply N.leb_le; lia).
  destruct (Byte.of_N (Z.to_N (x mod 256))) as [b|]; [|discriminate H].
  cbn [option_map] in H. injection H as ->. lia.
Qed.

(** Two creates in a row never draw the same object id: a create that
    passed its checks has advanced the counter before it panics, so in the
    state it leaves the next id drawn differs from the one it drew,
    whatever the clocks read. *)
Theorem consecutive_ids_differ e r s w t e2 :
  Decode r = inr t -> Wire.Title t <> [] ->
  nextObjectId e2 (leaves (createTodo e r s w)) <> nextObjectId e s.
Proof.
  intros D T. rewrite (createTodo_panics e r s w t D T). cbn [leaves].
  intros E.
  apply (f_equal (fun l => Z.of_N (Byte.to_N (nth 11 l Byte.x00)))) in E.
  unfold nextObjectId, bson.NewObjectId in E.
  cbn [machineId processId objectIdCounter with_counter] in E.
  destruct (machineId s) as [[? ?] ?].
  cbn [nth] in E. rewrite !byte_of_Z_mod in E.
  set (i := (objectIdCounter s + 1) mod 2 ^ 32) in *.
  assert (0 <= i < 2 ^ 32) as B by (apply Z.mod_pos_bound; lia).
  destruct (Z.eq_dec i (2 ^ 32 - 1)) as [Ei|N].
  - rewrite Ei in E. vm_compute in E. discriminate E.
  - rewrite (Z.mod_small (i + 1) (2 ^ 32)) in E by lia.
    pose proof (Z.div_mod i 256 ltac:(lia)).
    pose proof (Z.div_mod (i + 1) 256 ltac:(lia)).
    lia.
Qed.

Lemma consecutive_ids_differ_witness :
  nextObjectId ex_env (leaves (createTodo ex_env ex_post ex_empty [])) <>
  nextObjectId ex_env ex_empty.
Proof.
  apply (consecutive_ids_differ ex_env ex_post ex_empty [] ex_todo ex_env).
  - reflexivity.
  - discriminate.
Defined.

(** ** What the handlers keep *)

Lemma updateFirst_length sel u c c' :
  mgo.updateFirst sel u c = Some c' -> List.length c' = List.length c.
Proof.
  revert c'. induction c as [|d c IH]; intros c' R;
    cbn [mgo.updateFirst] in R; [discriminate|].
  destruct (mgo.matches sel d).
  - injection R as <-. reflexivity.
  - destruct (mgo.updateFirst sel u c) as [rest|]; [|discriminate].
    injection R as <-. cbn [List.length]. rewrite (IH rest eq_refl). reflexivity.
Qed.

Lemma step_kept op e r s w :
  incl (map (bson.lookup "_id") (todos (leaves (todoHandlers op e r s w))))
       (map (bson.lookup "_id") (todos s)) /\
  (List.length (todos (leaves (todoHandlers op e r s w)))
   <= List.length (todos s))%nat.
Proof.
  pose proof (handler_change op e r s w) as C.
  remember (todoHandlers op e r s w) as o eqn:Ho. clear Ho.
  destruct C as [op0 E _ _|oid t s' _ _ _ -> E|oid w' s' _ -> _ E];
    cbn [leaves] in *.
  - rewrite E. split; [apply incl_refl|apply le_n].
  - rewrite (updateFirst_ids (mgo.byId oid) (updateDoc t) _ _ eq_refl E),
      (updateFirst_length _ _ _ _ E).
    split; [apply incl_refl|apply le_n].
  - destruct (removeFirst_splits _ _ _ E) as (pre & d & post & -> & _ & _ & ->).
    split.
    + rewrite !map_app. cbn [map]. intros k I. apply in_app_or in I.
      apply in_or_app. destruct I as [I|I]; [left; exact I|right; right; exact I].
    + rewrite !length_app. cbn. lia.
Qed.

(** Whatever requests are served, the handlers never add a document and
    never change an [_id]: in every later state the ids are among those of
    the state started from, they are still unique if they were, and the
    documents are no more than before. *)
Theorem later_collection s s' :
  later s s' ->
  unique_ids (todos s) ->
  unique_ids (todos s') /\
  incl (map (bson.lookup "_id") (todos s')) (map (bson.lookup "_id") (todos s)) /\
  (List.length (todos s') <= List.length (todos s))%nat.
Proof.
  induction 1 as [s|s op e r w s2 _ IH]; intros U.
  - split; [exact U|]. split; [apply incl_refl|apply le_n].
  - destruct (IH (handlers_keep_unique_ids op e r s w U)) as (U2 & I2 & L2).
    destruct (step_kept op e r s w) as [I1 L1].
    split; [exact U2|]. split.
    + intros k I. apply I1. apply I2. exact I.
    + lia.
Qed.

Lemma later_collection_witness :
  later ex_stored (with_todos ex_stored []) /\
  unique_ids (todos (with_todos ex_stored [])) /\
  incl (map (bson.lookup "_id") (todos (with_todos ex_stored [])))
       (map (bson.lookup "_id") (todos ex_stored)) /\
  (List.length (todos (with_todos ex_stored []))
   <= List.length (todos ex_stored))%nat.
Proof.
  assert (later ex_stored (with_todos ex_stored [])) as L
    by exact (later_step ex_stored DeleteTodo ex_env ex_delete []
                (with_todos ex_stored []) (later_refl _)).
  split; [exact L|].
  apply (later_collection ex_stored (with_todos ex_stored []) L).
  unfold unique_ids. cbn [map ex_stored todos].
  constructor; [intros []|constructor].
Defined.
